(** * Credit tally of a transcript: a model of [credit-app/app.py]

    The program reads the tables of a transcript, keeps the rows that are
    course entries, maps each letter grade to a grade point, and sums the
    credits of the courses that passed against a requirement of 128.

    Conventions of the model.
    - A Python [str] is a list of Unicode code points ([PyStr.str]).
    - A pandas DataFrame is an ordered association list from column label to
      column; every column is a list of cells.
    - Grade points are binary64 floats, as in the source.  Credits are exact
      rationals in [analyze_student_grades]: the rounding of a float sum and
      the infinities that [pandas.to_numeric] can return are outside the
      model.  The wrap-around of the sum on a credits column of integers
      is modelled apart, in [int64_figures].
    - An exception is a value of [exn]; code that can raise returns
      [result]. *)

From Stdlib Require Import String Ascii.
From Stdlib Require Import List NArith ZArith QArith Qminmax Bool Lia Lqa.
From Stdlib Require Import PrimFloat.
Import ListNotations.

Set Warnings "-inexact-float".

(** ** Python strings *)

Module PyStr.

Definition str := list N.

(** Decoding of a UTF-8 literal into code points; [need] continuation bytes
    are still expected and [acc] holds the bits read so far. *)
Fixpoint utf8_decode (bs : list N) (need : nat) (acc : N) : str :=
  match bs with
  | [] => []
  | b :: rest =>
      match need with
      | O =>
          if (b <? 128)%N then b :: utf8_decode rest 0 0%N
          else if (b <? 224)%N then utf8_decode rest 1 (b - 192)%N
          else if (b <? 240)%N then utf8_decode rest 2 (b - 224)%N
          else utf8_decode rest 3 (b - 240)%N
      | S n =>
          let acc' := (acc * 64 + (b - 128))%N in
          match n with
          | O => acc' :: utf8_decode rest 0 0%N
          | S _ => utf8_decode rest n acc'
          end
      end
  end.

Definition u (s : string) : str :=
  utf8_decode (map N_of_ascii (list_ascii_of_string s)) 0 0%N.

Fixpoint eqb (a b : str) : bool :=
  match a, b with
  | [], [] => true
  | x :: a', y :: b' => (x =? y)%N && eqb a' b'
  | _, _ => false
  end.

(** [str.isspace] for one character: the code points Python treats as
    white space. *)
Definition isspace (c : N) : bool :=
  ((9 <=? c) && (c <=? 13) || (28 <=? c) && (c <=? 32)
   || (c =? 133) || (c =? 160) || (c =? 5760)
   || (8192 <=? c) && (c <=? 8202)
   || (c =? 8232) || (c =? 8233) || (c =? 8239) || (c =? 8287)
   || (c =? 12288))%N.

Fixpoint lstrip (s : str) : str :=
  match s with
  | [] => []
  | c :: s' => if isspace c then lstrip s' else s
  end.

Definition rstrip (s : str) : str := rev (lstrip (rev s)).

(** [s.strip()] *)
Definition strip (s : str) : str := rstrip (lstrip s).

(** The code points of value zero of the decimal digit blocks (category Nd,
    Unicode 14); each block holds the ten digits 0..9 in order. *)
Definition Nd_zeros : list N :=
  [ 0x30; 0x660; 0x6f0; 0x7c0; 0x966; 0x9e6; 0xa66; 0xae6; 0xb66; 0xbe6;
    0xc66; 0xce6; 0xd66; 0xde6; 0xe50; 0xed0; 0xf20; 0x1040; 0x1090; 0x17e0;
    0x1810; 0x1946; 0x19d0; 0x1a80; 0x1a90; 0x1b50; 0x1bb0; 0x1c40; 0x1c50;
    0xa620; 0xa8d0; 0xa900; 0xa9d0; 0xa9f0; 0xaa50; 0xabf0; 0xff10; 0x104a0;
    0x10d30; 0x11066; 0x110f0; 0x11136; 0x111d0; 0x112f0; 0x11450; 0x114d0;
    0x11650; 0x116c0; 0x11730; 0x118e0; 0x11950; 0x11c50; 0x11d50; 0x11da0;
    0x16a60; 0x16ac0; 0x16b50; 0x1d7ce; 0x1d7d8; 0x1d7e2; 0x1d7ec; 0x1d7f6;
    0x1e140; 0x1e2f0; 0x1e950; 0x1fbf0 ]%N.

(** The class [\d] of [re] on a [str] pattern. *)
Definition isdecimal (c : N) : bool :=
  existsb (fun z => (z <=? c) && (c <? z + 10))%N Nd_zeros.

(** [re.match(r'^\d{3}$', s) is not None].  Without [re.MULTILINE], [$]
    matches at the end of the string and also just before a newline that
    is the last character. *)
Definition match_three_digits (s : str) : bool :=
  match s with
  | [a; b; c] => isdecimal a && isdecimal b && isdecimal c
  | [a; b; c; nl] => isdecimal a && isdecimal b && isdecimal c && (nl =? 10)%N
  | _ => false
  end.

Fixpoint startswith (pat s : str) : bool :=
  match pat, s with
  | [], _ => true
  | p :: pat', c :: s' => (p =? c)%N && startswith pat' s'
  | _ :: _, [] => false
  end.

(** [re.search(pat, s) is not None] for a pattern of literal characters:
    [pat] occurs somewhere in [s]. *)
Fixpoint contains (pat s : str) : bool :=
  startswith pat s ||
  match s with
  | [] => false
  | _ :: s' => contains pat s'
  end.

End PyStr.

Import PyStr.

(** ** Exceptions *)

Inductive exn : Type :=
| KeyError (label : str)
| ValueError_length_mismatch (expected given : nat)
| AttributeError
| TypeError.

Inductive result (A : Type) : Type :=
| Ok (a : A)
| Raise (e : exn).

Arguments Ok {A} a.
Arguments Raise {A} e.

Definition bind {A B : Type} (r : result A) (k : A -> result B) : result B :=
  match r with
  | Ok a => k a
  | Raise e => Raise e
  end.

Notation "x <- r ;; k" := (bind r (fun x => k))
  (at level 61, r at next level, right associativity).

(** [f] applied to each element in turn; the first exception stops it. *)
Fixpoint mapM {A B : Type} (f : A -> result B) (l : list A) : result (list B) :=
  match l with
  | [] => Ok []
  | a :: l' => b <- f a ;; bs <- mapM f l' ;; Ok (b :: bs)
  end.

(** ** Data frames *)

Module DataFrame.

Definition frame (A : Type) : Type := list (str * list A).

Section Ops.
Context {A : Type}.

(** [df.shape[1]] *)
Definition shape1 (df : frame A) : nat := length df.

(** [df.shape[0]]: the columns of a frame have one length. *)
Definition nrows (df : frame A) : nat :=
  match df with
  | [] => 0
  | (_, c) :: _ => length c
  end.

(** [df.columns] *)
Definition columns (df : frame A) : list str := map fst df.

(** [df.empty] *)
Definition empty (df : frame A) : bool :=
  match df with
  | [] => true
  | _ :: _ => Nat.eqb (nrows df) 0
  end.

Fixpoint lookup (l : str) (df : frame A) : option (list A) :=
  match df with
  | [] => None
  | (l', c) :: df' => if eqb l l' then Some c else lookup l df'
  end.

(** [df[l]] *)
Definition getitem (l : str) (df : frame A) : result (list A) :=
  match lookup l df with
  | Some c => Ok c
  | None => Raise (KeyError l)
  end.

(** [df[l] = c]: an existing column is overwritten where it stands, a new
    one is added after the last. *)
Fixpoint setitem (l : str) (c : list A) (df : frame A) : frame A :=
  match df with
  | [] => [(l, c)]
  | (l', c') :: df' =>
      if eqb l l' then (l', c) :: df' else (l', c') :: setitem l c df'
  end.

(** The entries of [c] at the positions where [mask] is true. *)
Fixpoint select (mask : list bool) (c : list A) : list A :=
  match mask, c with
  | b :: mask', a :: c' => if b then a :: select mask' c' else select mask' c'
  | _, _ => []
  end.

(** [df[mask]] *)
Definition select_rows (mask : list bool) (df : frame A) : frame A :=
  map (fun lc => (fst lc, select mask (snd lc))) df.

(** [df[labels]] *)
Definition project (labels : list str) (df : frame A) : result (frame A) :=
  mapM (fun l => c <- getitem l df ;; Ok (l, c)) labels.

End Ops.

(** Elementwise [a & b] and [~a] on boolean columns. *)
Definition series_and (a b : list bool) : list bool :=
  map (fun xy => fst xy && snd xy) (combine a b).

Definition series_not (a : list bool) : list bool := map negb a.

End DataFrame.

Import DataFrame.

(** ** Cells *)

(** A cell of a table as the extraction returns it: text, or NaN where the
    position held nothing. *)
Inductive cell : Type :=
| Text (s : str)
| NaN.

(** A cell of the frame under analysis. *)
Inductive value : Type :=
| VStr (s : str)
| VNum (q : Q)
| VFloat (f : float)
| VBool (b : bool).

(** [str(x)] of a cell, as [Series.astype(str)] applies it. *)
Definition astype_str (x : cell) : str :=
  match x with
  | Text s => s
  | NaN => u "nan"
  end.

Definition isna (x : cell) : bool :=
  match x with
  | Text _ => false
  | NaN => true
  end.

(** ** Column labels *)

Definition L_year : str := u "學年度".
Definition L_term : str := u "學期".
Definition L_code : str := u "選課代號".
Definition L_name : str := u "科目名稱".
Definition L_credits : str := u "學分".
Definition L_GPA : str := u "GPA".
Definition L_GPA_Numeric : str := u "GPA_Numeric".
Definition L_passed : str := u "是否通過".

Definition expected_columns : list str :=
  [L_year; L_term; L_code; L_name; L_credits; L_GPA].

(** The marker of the summary line, [勞作成績]. *)
Definition summary_marker : str := u "勞作成績".

(** ** 1. Grade to grade point *)

Definition gpa_map : list (str * float) :=
  [ (u "A+", 4.3%float); (u "A", 4.0%float); (u "A-", 3.7%float);
    (u "B+", 3.3%float); (u "B", 3.0%float); (u "B-", 2.7%float);
    (u "C+", 2.3%float); (u "C", 2.0%float); (u "C-", 1.7%float);
    (u "D+", 1.3%float); (u "D", 1.0%float); (u "D-", 0.7%float);
    (u "E", 0.0%float); (u "F", 0.0%float);
    (u "抵免", 999.0%float);
    (u "通過", 999.0%float) ].

(** [d.get(k, default)] *)
Fixpoint dict_get {V : Type} (d : list (str * V)) (k : str) (default : V) : V :=
  match d with
  | [] => default
  | (k', v) :: d' => if eqb k k' then v else dict_get d' k default
  end.

Definition parse_gpa_to_numeric (gpa_str : str) : float :=
  dict_get gpa_map (strip gpa_str) 0.0%float.

(** A character that is neither white space nor a lower-case letter. *)
Definition plain_grade_char (c : N) : bool :=
  negb (isspace c) && negb ((97 <=? c) && (c <=? 122))%N.

(** ** 2. Analysis of the grades *)

Definition GRADUATION_REQUIREMENT : Q := 128.

Definition Qltb (x y : Q) : bool :=
  match x ?= y with
  | Lt => true
  | _ => false
  end.

(** [max(a, b)]: the first argument, unless the second is greater. *)
Definition py_max (a b : Q) : Q := if Qltb a b then b else a.

(** [Series.fillna(d)] on a numeric column; [None] is NaN. *)
Definition fillna (d : Q) (c : list (option Q)) : list Q :=
  map (fun x => match x with Some q => q | None => d end) c.

(** The binary64 value of the literal [1.7], as a rational. *)
Definition passing_threshold_exact : Q := 7656119366529843 # 4503599627370496.

(** The operations of the analysis on one cell.  A column read below is the
    one assigned a few lines above it, so every cell has the kind the
    operation expects; on a cell of a kind Python cannot handle there the
    operation raises. *)

(** [v.strip()] needs a [str]. *)
Definition as_str (v : value) : result str :=
  match v with
  | VStr s => Ok s
  | _ => Raise AttributeError
  end.

(** [x >= 1.7] *)
Definition ge_passing (v : value) : result bool :=
  match v with
  | VFloat f => Ok (PrimFloat.leb 1.7%float f)
  | VNum q => Ok (Qle_bool passing_threshold_exact q)
  | VBool _ => Ok false
  | VStr _ => Raise TypeError
  end.

(** [x > 0] *)
Definition gt_zero (v : value) : result bool :=
  match v with
  | VNum q => Ok (Qltb 0 q)
  | VFloat f => Ok (PrimFloat.ltb 0.0%float f)
  | VBool b => Ok b
  | VStr _ => Raise TypeError
  end.

(** An operand of [&] on boolean columns. *)
Definition as_bool (v : value) : result bool :=
  match v with
  | VBool b => Ok b
  | _ => Raise TypeError
  end.

(** A summand of [Series.sum()] on the credits column. *)
Definition as_num (v : value) : result Q :=
  match v with
  | VNum q => Ok q
  | _ => Raise TypeError
  end.

(** [Series.sum()] *)
Definition series_sum (c : list Q) : Q := fold_left Qplus c 0.

(** The caller's frame of text columns, as a frame of cells. *)
Definition astext (df : frame str) : frame value :=
  map (fun lc => (fst lc, map VStr (snd lc))) df.

Section Analysis.

(** [pandas.to_numeric] on one text cell with [errors='coerce']: [None] is
    NaN, the answer on text that is no number. *)
Variable to_numeric : str -> option Q.

(** The function returns its tuple and leaves the caller's frame [df] as
    the second component: the column assignments act on the caller's
    object. *)
Definition analyze_student_grades (df0 : frame str)
  : result (Q * Q * frame value * frame value) :=
  credits_txt <- getitem L_credits df0 ;;
  let df := setitem L_credits
              (map VNum (fillna 0 (map to_numeric credits_txt))) (astext df0) in
  gpa <- getitem L_GPA df ;;
  gpa_numeric <- mapM (fun v => s <- as_str v ;;
                                Ok (VFloat (parse_gpa_to_numeric s))) gpa ;;
  let df := setitem L_GPA_Numeric gpa_numeric df in
  x <- getitem L_GPA_Numeric df ;;
  is_passed <- mapM (fun v => b <- ge_passing v ;; Ok (VBool b)) x ;;
  let df := setitem L_passed is_passed df in
  a <- getitem L_passed df ;;
  a <- mapM as_bool a ;;
  c <- getitem L_credits df ;;
  c <- mapM gt_zero c ;;
  let passed_courses_df := select_rows (series_and a c) df in
  pc <- getitem L_credits passed_courses_df ;;
  pc <- mapM as_num pc ;;
  let total_earned_credits := series_sum pc in
  let remaining_credits_to_graduate :=
    py_max 0 (GRADUATION_REQUIREMENT - total_earned_credits) in
  Ok (total_earned_credits, remaining_credits_to_graduate,
      passed_courses_df, df).

End Analysis.

(** ** The analysis, record by record *)

(** The pass flag of a record and its counted credits, as lines 42 to 49
    compute them from the grade text and the coerced credits. *)
Definition is_passed (gpa_str : str) : bool :=
  PrimFloat.leb 1.7%float (parse_gpa_to_numeric gpa_str).

Definition passed_mask (credits : list Q) (gpa : list str) : list bool :=
  series_and (map is_passed gpa) (map (Qltb 0) credits).

(** The caller's frame after the call. *)
Definition frame_after (df : frame str) (credits : list Q) (gpa : list str) : frame value :=
  setitem L_passed (map VBool (map is_passed gpa))
    (setitem L_GPA_Numeric (map VFloat (map parse_gpa_to_numeric gpa))
       (setitem L_credits (map VNum credits) (astext df))).

(** The records of a frame, as far as the analysis looks at them: the
    coerced credits and the grade text of each row. *)
Definition records (credits : list Q) (gpa : list str) : list (Q * str) :=
  combine credits gpa.

Definition record_passes (r : Q * str) : bool :=
  is_passed (snd r) && Qltb 0 (fst r).

(** ** 3. The tables of the transcript *)

(** A table as the extraction returns it with [header=None]: its columns in
    order, labelled by position. *)
Definition raw_table : Type := list (list cell).

(** [df_table.head()]: the first five rows. *)
Definition raw_head (t : raw_table) : raw_table := map (firstn 5) t.

(** The warning of line 111 carries the head of the table skipped. *)
Inductive warning : Type :=
| SkippedTable (head_of_table : raw_table).

Inductive outcome : Type :=
| NoTablesExtracted
| Results (total_credits remaining_credits : Q)
          (passed_shown full_shown : frame value)
| NoValidData
| ErrorShown (e : exn).

(** [df.columns = labels] *)
Definition set_columns (labels : list str) (t : raw_table) : result (frame cell) :=
  if Nat.eqb (length labels) (length t) then Ok (combine labels t)
  else Raise (ValueError_length_mismatch (length t) (length labels)).

(** The rows kept of a labelled table: the mask of lines 105 to 108. *)
Definition year_mask (year : list cell) : list bool :=
  series_and
    (map (fun x => match_three_digits (astype_str x)) year)
    (series_not (map (fun x => contains summary_marker (astype_str x)) year)).

Definition column_or_na (l : str) (df : frame cell) : list cell :=
  match lookup l df with
  | Some c => c
  | None => repeat NaN (nrows df)
  end.

(** [pd.concat([a, b], ignore_index=True)]: the labels of [a], then those
    only [b] has; a frame without a column contributes NaN for its rows. *)
Definition concat (a b : frame cell) : frame cell :=
  let labels :=
    columns a ++ filter (fun l => negb (existsb (eqb l) (columns a))) (columns b) in
  map (fun l => (l, column_or_na l a ++ column_or_na l b)) labels.

(** The loop of lines 96 to 111, with the warnings shown so far. *)
Fixpoint merge_tables (raw_dfs : list raw_table) (full_grades_df : frame cell)
  : list warning * result (frame cell) :=
  match raw_dfs with
  | [] => ([], Ok full_grades_df)
  | df_table :: rest =>
      if Nat.leb (length expected_columns) (length df_table) then
        match
          (df <- set_columns (firstn (length df_table) expected_columns) df_table ;;
           year <- getitem L_year df ;;
           Ok (select_rows (year_mask year) df))
        with
        | Ok df => merge_tables rest (concat full_grades_df df)
        | Raise e => ([], Raise e)
        end
      else
        let (ws, r) := merge_tables rest full_grades_df in
        (SkippedTable (raw_head df_table) :: ws, r)
  end.

Definition row_all_na (df : frame cell) (i : nat) : bool :=
  forallb (fun lc => isna (nth i (snd lc) NaN)) df.

(** [df.dropna(how='all')] *)
Definition dropna_all (df : frame cell) : frame cell :=
  select_rows (map (fun i => negb (row_all_na df i)) (seq 0 (nrows df))) df.

(** Lines 117 and 118: every column as text, stripped. *)
Definition strip_columns (df : frame cell) : frame str :=
  map (fun lc => (fst lc, map (fun x => strip (astype_str x)) (snd lc))) df.

(** The course records that reach the analysis. *)
Definition normalize (raw_dfs : list raw_table) : list warning * result (frame str) :=
  let (ws, r) := merge_tables raw_dfs [] in
  (ws, full_grades_df <- r ;; Ok (strip_columns (dropna_all full_grades_df))).

Definition shown_columns : list str := [L_year; L_term; L_name; L_credits; L_GPA].

Section Main.

Variable to_numeric : str -> option Q.

(** [main] from the tables that [tabula.read_pdf] returned. *)
Definition main (raw_dfs : list raw_table) : list warning * outcome :=
  match raw_dfs with
  | [] => ([], NoTablesExtracted)
  | _ :: _ =>
      let (ws, r) := normalize raw_dfs in
      (ws,
       match r with
       | Raise e => ErrorShown e
       | Ok full_grades_df =>
           if negb (empty full_grades_df) then
             match
               (res <- analyze_student_grades to_numeric full_grades_df ;;
                let '(total, remaining, passed_courses_df, df) := res in
                shown <- project shown_columns passed_courses_df ;;
                Ok (Results total remaining shown df))
             with
             | Ok o => o
             | Raise e => ErrorShown e
             end
           else NoValidData
       end)
  end.

End Main.

(** ** A reader of plain decimal numerals *)

Definition digit_value (c : N) : option Z :=
  if ((48 <=? c) && (c <=? 57))%N then Some (Z.of_N c - 48)%Z else None.

(** The longest prefix of digits of [s]: its value on top of [acc], the
    number of digits read, and the rest. *)
Fixpoint read_digits (s : str) (acc : Z) (n : nat) : Z * nat * str :=
  match s with
  | [] => (acc, n, [])
  | c :: s' =>
      match digit_value c with
      | Some d => read_digits s' (acc * 10 + d)%Z (S n)
      | None => (acc, n, s)
      end
  end.

Definition unsigned_decimal (s : str) : option Q :=
  let '(i, ni, rest) := read_digits s 0%Z 0 in
  match ni, rest with
  | S _, [] => Some (inject_Z i)
  | S _, 46%N :: frac =>
      let '(f, nf, rest') := read_digits frac i 0 in
      match nf, rest' with
      | S _, [] => Some (f # Z.to_pos (10 ^ Z.of_nat nf))
      | _, _ => None
      end
  | _, _ => None
  end.

(** What [pandas.to_numeric] reads from a plain decimal numeral: an optional
    sign, digits, and optionally a point and digits.  This reader answers
    [None] on every other text, also on the forms with an exponent that
    pandas reads as well; it is applied to plain numerals only. *)
Definition to_numeric_decimal (s : str) : option Q :=
  match s with
  | 45%N :: s' => option_map Qopp (unsigned_decimal s')
  | 43%N :: s' => unsigned_decimal s'
  | _ => unsigned_decimal s
  end.

(** ** The figures on a credits column of integers *)

(** When every credits text is an integer numeral between [-2^63] and
    [2^63 - 1], [pandas.to_numeric] holds the column as int64: the sum of
    line 52 and the difference of line 55 are then int64 operations, and
    their results wrap around. *)

Definition int64_min : Z := (- 2 ^ 63)%Z.
Definition int64_max : Z := (2 ^ 63 - 1)%Z.

Definition wrap_int64 (z : Z) : Z := ((z + 2 ^ 63) mod 2 ^ 64 - 2 ^ 63)%Z.

Definition unsigned_integer (s : str) : option Z :=
  let '(i, n, rest) := read_digits s 0%Z 0 in
  match n, rest with
  | S _, [] => Some i
  | _, _ => None
  end.

(** An integer numeral: an optional sign, then digits. *)
Definition to_integer (s : str) : option Z :=
  match s with
  | 45%N :: s' => option_map Z.opp (unsigned_integer s')
  | 43%N :: s' => unsigned_integer s'
  | _ => unsigned_integer s
  end.

(** The credits column as int64 numbers, when each text is an integer
    numeral within the range; [None] when the column is not of this
    kind. *)
Fixpoint credits_int64 (cs : list str) : option (list Z) :=
  match cs with
  | [] => Some []
  | s :: cs' =>
      match to_integer s, credits_int64 cs' with
      | Some z, Some zs =>
          if ((int64_min <=? z) && (z <=? int64_max))%Z then Some (z :: zs)
          else None
      | _, _ => None
      end
  end.

(** [Series.sum()] on an int64 column. *)
Definition int64_sum (c : list Z) : Z :=
  fold_left (fun acc x => wrap_int64 (acc + x)) c 0%Z.

(** Lines 42 to 49 on an int64 credits column: the rows that pass. *)
Definition passed_mask_int64 (credits : list Z) (gpa : list str) : list bool :=
  series_and (map is_passed gpa) (map (Z.ltb 0) credits).

(** [total_earned_credits] and [remaining_credits_to_graduate] of lines 39
    to 55 for the credits texts [cs] and the grade texts [gs], on an int64
    credits column. *)
Definition int64_figures (cs gs : list str) : option (Z * Z) :=
  match credits_int64 cs with
  | None => None
  | Some credits =>
      let total := int64_sum (select (passed_mask_int64 credits gs) credits) in
      let difference := wrap_int64 (128 - total) in
      Some (total, if (0 <? difference)%Z then difference else 0%Z)
  end.

(** The credits that count, and their sum as integers without bound. *)
Definition counted_int64 (credits : list Z) (gpa : list str) : list Z :=
  map fst (filter (fun r => is_passed (snd r) && (0 <? fst r)%Z)
                  (combine credits gpa)).

Definition Zsum (l : list Z) : Z := fold_right Z.add 0%Z l.

(** ** Views for the statements *)

(** The table of the specification: each grade with its point. *)
Definition grade_point_table : list (string * float) :=
  [ ("A+", 4.3); ("A", 4.0); ("A-", 3.7);
    ("B+", 3.3); ("B", 3.0); ("B-", 2.7);
    ("C+", 2.3); ("C", 2.0); ("C-", 1.7);
    ("D+", 1.3); ("D", 1.0); ("D-", 0.7);
    ("E", 0.0); ("F", 0.0);
    ("抵免", 999.0); ("通過", 999.0) ]%string%float.

(** The warning of line 111 for a table. *)
Definition skipped (t : raw_table) : warning := SkippedTable (raw_head t).

(** The test of lines 106 and 107 on the year cell of one row. *)
Definition keep_row (year : cell) : bool :=
  match_three_digits (astype_str year)
  && negb (contains summary_marker (astype_str year)).


(** Column [j] of a table, restricted to the rows whose year passes. *)
Definition kept_column (j : nat) (t : raw_table) : list cell :=
  select (map keep_row (nth 0 t [])) (nth j t []).

(** A table of six columns after lines 101 to 108. *)
Definition kept_rows (t : raw_table) : frame cell :=
  combine expected_columns (map (fun j => kept_column j t) (seq 0 6)).

Definition has_width (n : nat) (t : raw_table) : bool := Nat.eqb (length t) n.

(** Column [j] of the records built from the tables of six columns. *)
Definition normalized_column (j : nat) (tables : list raw_table) : list str :=
  map (fun x => strip (astype_str x)) (flat_map (kept_column j) tables).

Definition normalized_frame (tables : list raw_table) : frame str :=
  match tables with
  | [] => []
  | _ :: _ =>
      combine expected_columns
        (map (fun j => normalized_column j tables) (seq 0 6))
  end.

(** The grades of [gpa_map] whose point is at least that of C-. *)
Definition passing_grades : list string :=
  [ "A+"; "A"; "A-"; "B+"; "B"; "B-"; "C+"; "C"; "C-"; "抵免"; "通過" ]%string.

(** ** Sample tables *)

Definition table_of_rows (width : nat) (rows : list (list string)) : raw_table :=
  map (fun j => map (fun r => Text (u (nth j r EmptyString))) rows) (seq 0 width).

(** The two rows of the end-to-end scenario with a seventh column. *)
Definition seven_column_table : raw_table :=
  table_of_rows 7 [ ["112"; "1"; "CS101"; "Intro"; "3"; "A"; "note"];
                    ["112"; "1"; "CS102"; "Lab"; "1"; "F"; "note"] ]%string.

(** The two rows of the end-to-end scenario. *)
Definition two_course_table : raw_table :=
  table_of_rows 6 [ ["112"; "1"; "CS101"; "Intro"; "3"; "A"];
                    ["112"; "1"; "CS102"; "Lab"; "1"; "F"] ]%string.

(** A course row whose year has a space before it. *)
Definition padded_year_table : raw_table :=
  table_of_rows 6 [ [" 112"; "1"; "CS101"; "Intro"; "3"; "A"] ]%string.

(** The rows of the row-filter scenario. *)
Definition filter_scenario_table : raw_table :=
  table_of_rows 6 [ ["112"; "1"; "CS101"; "Intro"; "3"; "B"];
                    ["abc"; "1"; "CS102"; "Lab"; "1"; "A"];
                    ["112 勞作成績為:未通過"; ""; ""; ""; ""; ""] ]%string.

(** ** Sample frames *)

Definition course_frame (rows : list (list string)) : frame str :=
  map (fun lk => (fst lk, map (fun r => u (nth (snd lk) r EmptyString)) rows))
      (combine expected_columns (seq 0 6)).

(** The two rows of the end-to-end scenario, as records. *)
Definition two_course_frame : frame str :=
  course_frame [ ["112"; "1"; "CS101"; "Intro"; "3"; "A"];
                 ["112"; "1"; "CS102"; "Lab"; "1"; "F"] ]%string.

Definition empty_course_frame : frame str := course_frame [].

Definition negative_credit_frame : frame str :=
  course_frame [ ["112"; "1"; "CS101"; "Intro"; "-3"; "A"] ]%string.


Definition zero_credit_pass_frame : frame str :=
  course_frame [ ["112"; "1"; "PE"; "Service"; "0"; "通過"];
                 ["112"; "1"; "CS101"; "Intro"; "x"; "A"] ]%string.



(** Frames that lack a column the analysis reads. *)
Definition no_credits_frame : frame str :=
  [ (L_name, [u "Intro"]); (L_GPA, [u "A"]) ].

Definition no_gpa_frame : frame str :=
  [ (L_name, [u "Intro"]); (L_credits, [u "3"]) ].

(** The two rows of the scenario, one frame each. *)
Definition first_course_frame : frame str :=
  course_frame [ ["112"; "1"; "CS101"; "Intro"; "3"; "A"] ]%string.

Definition second_course_frame : frame str :=
  course_frame [ ["112"; "1"; "CS102"; "Lab"; "1"; "F"] ]%string.

(** * Properties *)

(** ** Strings and frames *)

Lemma eqb_eq (a b : str) : eqb a b = true <-> a = b.
Proof.
  revert b. induction a as [|x a IH]; intros [|y b]; simpl; split;
    try congruence; try reflexivity.
  - intros H. apply andb_true_iff in H as [Hx Hab].
    apply N.eqb_eq in Hx. apply IH in Hab. congruence.
  - intros H. inversion H; subst. rewrite N.eqb_refl. simpl. now apply IH.
Qed.

Lemma eqb_refl (a : str) : eqb a a = true.
Proof. now apply eqb_eq. Qed.

Lemma eqb_neq (a b : str) : eqb a b = false <-> a <> b.
Proof.
  split.
  - intros H E. apply eqb_eq in E. congruence.
  - intros H. destruct (eqb a b) eqn:E; [|reflexivity].
    apply eqb_eq in E. contradiction.
Qed.

Lemma dict_get_default {V : Type} (d : list (str * V)) (k : str) (dflt : V) :
  ~ In k (map fst d) -> dict_get d k dflt = dflt.
Proof.
  induction d as [|[k' v] d IH]; simpl; intros H; [reflexivity|].
  destruct (eqb k k') eqn:E.
  - apply eqb_eq in E. subst. exfalso. apply H. now left.
  - apply IH. intros Hin. apply H. now right.
Qed.

Lemma dict_get_hit {V : Type} (d : list (str * V)) (k : str) (dflt : V) :
  In k (map fst d) -> In (k, dict_get d k dflt) d.
Proof.
  induction d as [|[k' v] d IH]; simpl; intros H; [contradiction|].
  destruct (eqb k k') eqn:E.
  - apply eqb_eq in E. subst. now left.
  - right. apply IH. destruct H as [H|H]; [|exact H].
    apply eqb_neq in E. congruence.
Qed.

Section FrameFacts.
Context {A : Type}.
Implicit Types (df : frame A) (l : str) (c : list A).

Lemma lookup_setitem_same l c df : lookup l (setitem l c df) = Some c.
Proof.
  induction df as [|[l' c'] df IH]; simpl.
  - now rewrite eqb_refl.
  - destruct (eqb l l') eqn:E; simpl; rewrite E; [reflexivity | exact IH].
Qed.

Lemma lookup_setitem_other l l' c df :
  l <> l' -> lookup l' (setitem l c df) = lookup l' df.
Proof.
  intros Hne. induction df as [|[k c'] df IH]; simpl.
  - assert (E : eqb l' l = false) by (apply eqb_neq; congruence).
    now rewrite E.
  - destruct (eqb l k) eqn:E; simpl.
    + apply eqb_eq in E. subst k.
      assert (E : eqb l' l = false) by (apply eqb_neq; congruence).
      now rewrite E.
    + now rewrite IH.
Qed.

Lemma lookup_select_rows mask l df :
  lookup l (select_rows mask df) = option_map (select mask) (lookup l df).
Proof.
  induction df as [|[k c'] df IH]; simpl; [reflexivity|].
  destruct (eqb l k); [reflexivity | exact IH].
Qed.

Lemma getitem_lookup l df c : lookup l df = Some c -> getitem l df = Ok c.
Proof. unfold getitem. now intros ->. Qed.

Lemma select_map {B : Type} (f : A -> B) mask c :
  select mask (map f c) = map f (select mask c).
Proof.
  revert c. induction mask as [|b mask IH]; intros [|a c]; simpl;
    try reflexivity.
  destruct b; simpl; now rewrite IH.
Qed.

End FrameFacts.

Lemma lookup_astext (l : str) (df : frame str) :
  lookup l (astext df) = option_map (map VStr) (lookup l df).
Proof.
  induction df as [|[k c] df IH]; simpl; [reflexivity|].
  destruct (eqb l k); [reflexivity | exact IH].
Qed.

Lemma mapM_map {A B C : Type} (g : A -> B) (f : B -> result C) (h : A -> C) (l : list A) :
  (forall a, f (g a) = Ok (h a)) -> mapM f (map g l) = Ok (map h l).
Proof.
  intros H. induction l as [|a l IH]; simpl; [reflexivity|].
  now rewrite H, IH.
Qed.

(** ** Rationals *)

Lemma Qltb_lt (x y : Q) : Qltb x y = true <-> x < y.
Proof.
  unfold Qltb. rewrite Qlt_alt. destruct (x ?= y); split; congruence.
Qed.



(** ** The analysis, line by line *)

Lemma bind_Ok {A B : Type} (a : A) (k : A -> result B) : bind (Ok a) k = k a.
Proof. reflexivity. Qed.

Lemma labels_distinct :
  L_credits <> L_GPA /\ L_credits <> L_GPA_Numeric /\ L_credits <> L_passed
  /\ L_GPA_Numeric <> L_GPA /\ L_passed <> L_GPA /\ L_GPA_Numeric <> L_passed.
Proof. repeat split; apply eqb_neq; reflexivity. Qed.

Section AnalysisFacts.

Variable to_numeric : str -> option Q.

Lemma analyze_student_grades_eq (df : frame str) (cs gs : list str) :
  lookup L_credits df = Some cs ->
  lookup L_GPA df = Some gs ->
  let credits := fillna 0 (map to_numeric cs) in
  let mask := passed_mask credits gs in
  let total := series_sum (select mask credits) in
  analyze_student_grades to_numeric df =
    Ok (total, py_max 0 (GRADUATION_REQUIREMENT - total),
        select_rows mask (frame_after df credits gs),
        frame_after df credits gs).
Proof.
  intros Hc Hg credits mask total.
  destruct labels_distinct as (Hcg & Hcn & Hcp & Hng & Hpg & Hnp).
  unfold analyze_student_grades.
  rewrite (getitem_lookup _ _ _ Hc), bind_Ok.
  fold credits.
  erewrite (getitem_lookup L_GPA); cycle 1.
  { rewrite lookup_setitem_other by exact Hcg.
    rewrite lookup_astext, Hg. reflexivity. }
  rewrite bind_Ok.
  rewrite (mapM_map VStr _ (fun s => VFloat (parse_gpa_to_numeric s)))
    by reflexivity.
  rewrite bind_Ok.
  erewrite (getitem_lookup L_GPA_Numeric) by apply lookup_setitem_same.
  rewrite bind_Ok.
  rewrite (mapM_map (fun s => VFloat (parse_gpa_to_numeric s)) _
             (fun s => VBool (is_passed s))) by reflexivity.
  rewrite bind_Ok.
  erewrite (getitem_lookup L_passed) by apply lookup_setitem_same.
  rewrite bind_Ok.
  rewrite (mapM_map (fun s => VBool (is_passed s)) _ is_passed) by reflexivity.
  rewrite bind_Ok.
  erewrite (getitem_lookup L_credits); cycle 1.
  { rewrite lookup_setitem_other by congruence.
    rewrite lookup_setitem_other by congruence.
    apply lookup_setitem_same. }
  rewrite bind_Ok.
  rewrite (mapM_map VNum _ (Qltb 0)) by reflexivity.
  rewrite bind_Ok.
  fold (passed_mask credits gs). fold mask.
  erewrite (getitem_lookup L_credits); cycle 1.
  { rewrite lookup_select_rows.
    rewrite lookup_setitem_other by congruence.
    rewrite lookup_setitem_other by congruence.
    rewrite lookup_setitem_same. simpl. rewrite select_map. reflexivity. }
  rewrite bind_Ok.
  rewrite (mapM_map VNum _ (fun q => q)) by reflexivity.
  rewrite bind_Ok, map_id.
  unfold frame_after. rewrite !map_map. reflexivity.
Qed.

End AnalysisFacts.

Lemma getitem_Ok {A : Type} (l : str) (df : frame A) (c : list A) :
  getitem l df = Ok c <-> lookup l df = Some c.
Proof.
  unfold getitem. destruct (lookup l df); split; congruence.
Qed.

Lemma passed_mask_records (credits : list Q) (gpa : list str) :
  passed_mask credits gpa = map record_passes (records credits gpa).
Proof.
  unfold passed_mask, series_and, records.
  revert gpa. induction credits as [|c credits IH]; intros [|g gpa]; simpl;
    try reflexivity.
  f_equal. apply IH.
Qed.





Lemma record_passes_iff (r : Q * str) :
  record_passes r = true <->
  PrimFloat.leb 1.7%float (parse_gpa_to_numeric (snd r)) = true /\ 0 < fst r.
Proof.
  unfold record_passes, is_passed. rewrite andb_true_iff, Qltb_lt. reflexivity.
Qed.

Lemma frame_after_credits (df : frame str) (credits : list Q) (gpa : list str) :
  lookup L_credits (frame_after df credits gpa) = Some (map VNum credits).
Proof.
  destruct labels_distinct as (Hcg & Hcn & Hcp & Hng & Hpg & Hnp).
  unfold frame_after.
  rewrite lookup_setitem_other by congruence.
  rewrite lookup_setitem_other by congruence.
  apply lookup_setitem_same.
Qed.






(** C8. A frame of no rows is analysed without error: total 0, remaining
    128, and no passed course. *)
Theorem empty_input_is_valid (to_numeric : str -> option Q) (df : frame str) :
  getitem L_credits df = Ok [] ->
  getitem L_GPA df = Ok [] ->
  exists passed df',
    analyze_student_grades to_numeric df = Ok (0, 128, passed, df')
    /\ nrows passed = 0%nat
    /\ (forall l c, getitem l passed = Ok c -> c = []).
Proof.
  intros Hc Hg. apply getitem_Ok in Hc, Hg.
  pose proof (analyze_student_grades_eq to_numeric df [] [] Hc Hg) as E.
  cbv zeta in E. eexists _, _. split; [exact E|]. split.
  - unfold frame_after. simpl. destruct (setitem _ _ _) as [|[k c] rest];
      reflexivity.
  - intros l c H. apply getitem_Ok in H. rewrite lookup_select_rows in H.
    destruct (lookup l _); simpl in H; [|discriminate].
    injection H as <-. reflexivity.
Qed.

Lemma empty_input_is_valid_witness :
  getitem L_credits empty_course_frame = Ok []
  /\ getitem L_GPA empty_course_frame = Ok []
  /\ exists passed df',
       analyze_student_grades to_numeric_decimal empty_course_frame
         = Ok (0, 128, passed, df').
Proof.
  split; [reflexivity|]. split; [reflexivity|].
  destruct (empty_input_is_valid to_numeric_decimal empty_course_frame
              eq_refl eq_refl) as (passed & df' & E & _).
  exists passed, df'. exact E.
Defined.

(** C6, as the specification states it, fails: a negative numeral is read as a
    negative number and stays in the credits column. *)
Lemma negative_credits_survive_coercion :
  exists total remaining passed df',
    analyze_student_grades to_numeric_decimal negative_credit_frame
      = Ok (total, remaining, passed, df')
    /\ getitem L_credits df' = Ok [VNum (-3)]
    /\ ~ 0 <= -3.
Proof.
  eexists _, _, _, _. split; [vm_compute; reflexivity|].
  split; [reflexivity|]. unfold Qle. simpl. lia.
Qed.

(** C6, amended. After the coercion every credits cell is a number: the
    number its text reads as, or 0 where the text reads as none; the
    analysis does not stop on such text. *)
Theorem credits_coerced_to_numbers
  (to_numeric : str -> option Q) (df : frame str) (cs gs : list str) :
  getitem L_credits df = Ok cs ->
  getitem L_GPA df = Ok gs ->
  exists total remaining passed df',
    analyze_student_grades to_numeric df = Ok (total, remaining, passed, df')
    /\ getitem L_credits df'
       = Ok (map (fun s => VNum match to_numeric s with
                                | Some q => q
                                | None => 0
                                end) cs)
    /\ (forall v, In v (map VNum (map fst (filter record_passes
                     (records (fillna 0 (map to_numeric cs)) gs)))) ->
        exists q, v = VNum q /\ 0 < q).
Proof.
  intros Hc Hg. apply getitem_Ok in Hc, Hg.
  pose proof (analyze_student_grades_eq to_numeric df cs gs Hc Hg) as E.
  cbv zeta in E. eexists _, _, _, _. split; [exact E|]. split.
  - apply getitem_Ok. rewrite frame_after_credits. unfold fillna.
    now rewrite !map_map.
  - intros v Hv. apply in_map_iff in Hv as (q & <- & Hq). exists q.
    split; [reflexivity|]. apply in_map_iff in Hq as (r & <- & Hr).
    apply filter_In in Hr as [_ Hp]. now apply record_passes_iff in Hp.
Qed.

Lemma credits_coerced_to_numbers_witness :
  getitem L_credits zero_credit_pass_frame = Ok [u "0"; u "x"]
  /\ getitem L_GPA zero_credit_pass_frame = Ok [u "通過"; u "A"]
  /\ to_numeric_decimal (u "x") = None
  /\ exists total remaining passed df',
       analyze_student_grades to_numeric_decimal zero_credit_pass_frame
         = Ok (total, remaining, passed, df')
       /\ getitem L_credits df' = Ok [VNum 0; VNum 0].
Proof.
  split; [reflexivity|]. split; [reflexivity|]. split; [reflexivity|].
  destruct (credits_coerced_to_numbers to_numeric_decimal
              zero_credit_pass_frame [u "0"; u "x"] [u "通過"; u "A"]
              eq_refl eq_refl) as (total & remaining & passed & df' & E & Hcol & _).
  exists total, remaining, passed, df'. split; [exact E | exact Hcol].
Defined.

(** C7, as the specification states it, fails: after the call the caller's frame
    holds numbers in its credits column and has two more columns. *)
Lemma analysis_changes_callers_frame :
  exists total remaining passed df',
    analyze_student_grades to_numeric_decimal two_course_frame
      = Ok (total, remaining, passed, df')
    /\ df' <> astext two_course_frame
    /\ getitem L_credits (astext two_course_frame) = Ok [VStr (u "3"); VStr (u "1")]
    /\ getitem L_credits df' = Ok [VNum 3; VNum 1]
    /\ shape1 (astext two_course_frame) = 6%nat
    /\ shape1 df' = 8%nat.
Proof.
  eexists _, _, _, _. split; [vm_compute; reflexivity|].
  split; [|repeat split; reflexivity].
  intros H. apply (f_equal (@length _)) in H. vm_compute in H. discriminate H.
Qed.

(** C7, amended. The analysis writes into the caller's frame: it replaces
    the credits column by the coerced numbers and sets the columns
    [GPA_Numeric] and [是否通過]; it leaves every other column as it was,
    and the frame of passed courses is a selection of rows of the frame so
    changed. *)
Theorem analysis_rewrites_three_columns
  (to_numeric : str -> option Q) (df : frame str) (cs gs : list str) :
  getitem L_credits df = Ok cs ->
  getitem L_GPA df = Ok gs ->
  let credits := fillna 0 (map to_numeric cs) in
  exists total remaining passed df',
    analyze_student_grades to_numeric df = Ok (total, remaining, passed, df')
    /\ getitem L_credits df' = Ok (map VNum credits)
    /\ getitem L_GPA_Numeric df' = Ok (map VFloat (map parse_gpa_to_numeric gs))
    /\ getitem L_passed df' = Ok (map VBool (map is_passed gs))
    /\ (forall l, l <> L_credits -> l <> L_GPA_Numeric -> l <> L_passed ->
        getitem l df' = getitem l (astext df))
    /\ passed = select_rows (passed_mask credits gs) df'.
Proof.
  intros Hc Hg credits. apply getitem_Ok in Hc, Hg.
  pose proof (analyze_student_grades_eq to_numeric df cs gs Hc Hg) as E.
  cbv zeta in E. fold credits in E.
  destruct labels_distinct as (Hcg & Hcn & Hcp & Hng & Hpg & Hnp).
  eexists _, _, _, _. split; [exact E|].
  split; [apply getitem_Ok, frame_after_credits|].
  split; [|split; [|split; [|reflexivity]]].
  - apply getitem_Ok. unfold frame_after.
    rewrite lookup_setitem_other by congruence. apply lookup_setitem_same.
  - apply getitem_Ok. unfold frame_after. apply lookup_setitem_same.
  - intros l H1 H2 H3. unfold getitem, frame_after.
    now rewrite !lookup_setitem_other by congruence.
Qed.

Lemma analysis_rewrites_three_columns_witness :
  getitem L_credits two_course_frame = Ok [u "3"; u "1"]
  /\ getitem L_GPA two_course_frame = Ok [u "A"; u "F"]
  /\ exists total remaining passed df',
       analyze_student_grades to_numeric_decimal two_course_frame
         = Ok (total, remaining, passed, df')
       /\ getitem L_credits df' = Ok [VNum 3; VNum 1]
       /\ getitem L_GPA_Numeric df' = Ok [VFloat 4.0; VFloat 0.0]
       /\ getitem L_passed df' = Ok [VBool true; VBool false].
Proof.
  split; [reflexivity|]. split; [reflexivity|].
  destruct (analysis_rewrites_three_columns to_numeric_decimal
              two_course_frame [u "3"; u "1"] [u "A"; u "F"] eq_refl eq_refl)
    as (total & remaining & passed & df' & E & H1 & H2 & H3 & _).
  exists total, remaining, passed, df'. repeat split; assumption.
Defined.

(** ** The grade table *)

Lemma gpa_map_keys :
  map fst gpa_map = map (fun gp => u (fst gp)) grade_point_table.
Proof. reflexivity. Qed.

Lemma str_eq_dec (a b : str) : {a = b} + {a <> b}.
Proof. apply list_eq_dec, N.eq_dec. Qed.

(** C2. The lookup gives every grade of the table its constant, also with
    white space around the grade, and gives 0.0 to every string that, once
    trimmed, is not in the table. *)
Theorem grade_points_follow_table :
  (forall g p, In (g, p) grade_point_table -> parse_gpa_to_numeric (u g) = p)
  /\ (forall g p s, In (g, p) grade_point_table -> strip s = u g ->
      parse_gpa_to_numeric s = p)
  /\ (forall s,
      ~ In (strip s) (map (fun gp => u (fst gp)) grade_point_table) ->
      parse_gpa_to_numeric s = 0.0%float).
Proof.
  split; [|split].
  - intros g p Hin. simpl in Hin.
    repeat (destruct Hin as [Hin|Hin];
            [injection Hin as <- <-; reflexivity|]).
    contradiction.
  - intros g p s Hin Hs. unfold parse_gpa_to_numeric. rewrite Hs.
    simpl in Hin.
    repeat (destruct Hin as [Hin|Hin];
            [injection Hin as <- <-; reflexivity|]).
    contradiction.
  - intros s Hs. unfold parse_gpa_to_numeric. apply dict_get_default.
    now rewrite gpa_map_keys.
Qed.

Lemma grade_points_follow_table_witness :
  In ("B+"%string, 3.3%float) grade_point_table
  /\ strip (u " B+ ") = u "B+"
  /\ parse_gpa_to_numeric (u " B+ ") = 3.3%float
  /\ ~ In (strip (u "X")) (map (fun gp => u (fst gp)) grade_point_table)
  /\ parse_gpa_to_numeric (u "X") = 0.0%float.
Proof.
  assert (Hin : In ("B+"%string, 3.3%float) grade_point_table).
  { simpl. do 3 right. left. reflexivity. }
  assert (Hout : ~ In (strip (u "X"))
                   (map (fun gp => u (fst gp)) grade_point_table)).
  { intros H. vm_compute in H.
    repeat (destruct H as [H|H]; [discriminate H|]). exact H. }
  destruct grade_points_follow_table as (_ & Htrim & Hdefault).
  split; [exact Hin|]. split; [reflexivity|].
  split; [exact (Htrim _ _ (u " B+ ") Hin eq_refl)|].
  split; [exact Hout | exact (Hdefault (u "X") Hout)].
Defined.

Lemma gpa_map_keys_plain (k : str) (c : N) :
  In k (map fst gpa_map) -> In c k -> plain_grade_char c = true.
Proof.
  intros Hk Hc.
  assert (H : forallb (forallb plain_grade_char) (map fst gpa_map) = true)
    by reflexivity.
  rewrite forallb_forall in H. specialize (H k Hk).
  rewrite forallb_forall in H. exact (H c Hc).
Qed.

Lemma parse_gpa_default (s : str) :
  ~ In (strip s) (map fst gpa_map) -> parse_gpa_to_numeric s = 0.0%float.
Proof. intros H. now apply dict_get_default. Qed.

(** C9. The lookup compares the trimmed string with the table entries
    character by character: a value other than 0.0 comes only from a
    trimmed string that is an entry, so a string with a lower-case letter
    or with white space left inside after trimming gets 0.0. *)
Theorem grade_lookup_is_exact (s : str) :
  (parse_gpa_to_numeric s <> 0.0%float ->
   In (strip s, parse_gpa_to_numeric s) gpa_map)
  /\ ((exists c, In c (strip s) /\ (97 <= c <= 122)%N) ->
      parse_gpa_to_numeric s = 0.0%float)
  /\ ((exists c, In c (strip s) /\ isspace c = true) ->
      parse_gpa_to_numeric s = 0.0%float).
Proof.
  split; [|split].
  - intros Hnz. destruct (in_dec str_eq_dec (strip s) (map fst gpa_map)) as [Hin|Hout].
    + now apply dict_get_hit.
    + now apply parse_gpa_default in Hout.
  - intros (c & Hc & Hlow). apply parse_gpa_default. intros Hin.
    pose proof (gpa_map_keys_plain _ _ Hin Hc) as Hp.
    unfold plain_grade_char in Hp. apply andb_true_iff in Hp as [_ Hp].
    apply negb_true_iff, andb_false_iff in Hp.
    destruct Hp as [Hp|Hp]; [apply N.leb_gt in Hp | apply N.leb_gt in Hp]; lia.
  - intros (c & Hc & Hsp). apply parse_gpa_default. intros Hin.
    pose proof (gpa_map_keys_plain _ _ Hin Hc) as Hp.
    unfold plain_grade_char in Hp. apply andb_true_iff in Hp as [Hp _].
    rewrite Hsp in Hp. discriminate Hp.
Qed.

Lemma grade_lookup_is_exact_witness :
  parse_gpa_to_numeric (u "b+") = 0.0%float
  /\ parse_gpa_to_numeric (u "B +") = 0.0%float
  /\ parse_gpa_to_numeric (u " B+ ") <> 0.0%float
  /\ In (strip (u " B+ "), parse_gpa_to_numeric (u " B+ ")) gpa_map.
Proof.
  assert (Hnz : parse_gpa_to_numeric (u " B+ ") <> 0.0%float).
  { intros H. vm_compute in H. discriminate H. }
  split; [|split; [|split]].
  - apply (proj1 (proj2 (grade_lookup_is_exact (u "b+")))). exists 98%N.
    split; [left; reflexivity | lia].
  - apply (proj2 (proj2 (grade_lookup_is_exact (u "B +")))). exists 32%N.
    split; [right; left; reflexivity | reflexivity].
  - exact Hnz.
  - exact (proj1 (grade_lookup_is_exact (u " B+ ")) Hnz).
Defined.

(** ** The tables: one step of the loop *)

Lemma year_mask_keep_row (year : list cell) : year_mask year = map keep_row year.
Proof.
  unfold year_mask, series_and, series_not, keep_row.
  induction year as [|x year IH]; simpl; [reflexivity|]. now rewrite IH.
Qed.

Lemma merge_tables_narrow (t : raw_table) (rest : list raw_table) (full : frame cell) :
  (length t < 6)%nat ->
  merge_tables (t :: rest) full
  = (skipped t :: fst (merge_tables rest full),
     snd (merge_tables rest full)).
Proof.
  intros H. cbn [merge_tables].
  replace (Nat.leb (length expected_columns) (length t)) with false
    by (symmetry; apply Nat.leb_gt; exact H).
  now destruct (merge_tables rest full).
Qed.

Lemma merge_tables_wide (t : raw_table) (rest : list raw_table) (full : frame cell) :
  (6 < length t)%nat ->
  merge_tables (t :: rest) full
  = ([], Raise (ValueError_length_mismatch (length t) 6)).
Proof.
  intros H. cbn [merge_tables].
  replace (Nat.leb (length expected_columns) (length t)) with true
    by (symmetry; apply Nat.leb_le; simpl; lia).
  unfold set_columns.
  assert (Hlen : length (firstn (length t) expected_columns) = 6%nat).
  { rewrite length_firstn. simpl. lia. }
  rewrite Hlen.
  replace (Nat.eqb 6 (length t)) with false
    by (symmetry; apply Nat.eqb_neq; lia).
  reflexivity.
Qed.

Lemma merge_tables_six (t : raw_table) (rest : list raw_table) (full : frame cell) :
  length t = 6%nat ->
  merge_tables (t :: rest) full = merge_tables rest (concat full (kept_rows t)).
Proof.
  intros H.
  destruct t as [|y [|c1 [|c2 [|c3 [|c4 [|c5 [|c6 t]]]]]]]; try discriminate H.
  cbn [merge_tables]. unfold kept_rows, kept_column.
  change (Nat.leb (length expected_columns) (length [y; c1; c2; c3; c4; c5]))
    with true.
  cbv iota.
  change (set_columns (firstn (length [y; c1; c2; c3; c4; c5]) expected_columns)
            [y; c1; c2; c3; c4; c5])
    with (Ok (combine expected_columns [y; c1; c2; c3; c4; c5])).
  rewrite bind_Ok.
  change (getitem L_year (combine expected_columns [y; c1; c2; c3; c4; c5]))
    with (Ok y).
  rewrite bind_Ok, year_mask_keep_row. reflexivity.
Qed.

(** ** The tables: the whole loop *)

Lemma merge_tables_fold (raw_dfs : list raw_table) (full : frame cell) :
  Forall (fun t => (length t <= 6)%nat) raw_dfs ->
  merge_tables raw_dfs full
  = (map skipped (filter (fun t => negb (has_width 6 t)) raw_dfs),
     Ok (fold_left concat (map kept_rows (filter (has_width 6) raw_dfs)) full)).
Proof.
  intros H. revert full. induction H as [|t rest Ht Hrest IH]; intros full.
  - reflexivity.
  - unfold has_width in *. cbn [filter].
    destruct (Nat.eqb (length t) 6) eqn:E.
    + apply Nat.eqb_eq in E. rewrite merge_tables_six by exact E.
      rewrite IH. reflexivity.
    + apply Nat.eqb_neq in E. rewrite merge_tables_narrow by lia.
      rewrite IH. reflexivity.
Qed.

Lemma concat_kept_rows (c0 c1 c2 c3 c4 c5 : list cell) (t : raw_table) :
  concat (combine expected_columns [c0; c1; c2; c3; c4; c5]) (kept_rows t)
  = combine expected_columns
      [c0 ++ kept_column 0 t; c1 ++ kept_column 1 t; c2 ++ kept_column 2 t;
       c3 ++ kept_column 3 t; c4 ++ kept_column 4 t; c5 ++ kept_column 5 t].
Proof. reflexivity. Qed.

Lemma concat_nil_kept_rows (t : raw_table) : concat [] (kept_rows t) = kept_rows t.
Proof. reflexivity. Qed.

Lemma fold_concat_six (ts : list raw_table) (c0 c1 c2 c3 c4 c5 : list cell) :
  fold_left concat (map kept_rows ts)
    (combine expected_columns [c0; c1; c2; c3; c4; c5])
  = combine expected_columns
      [c0 ++ flat_map (kept_column 0) ts; c1 ++ flat_map (kept_column 1) ts;
       c2 ++ flat_map (kept_column 2) ts; c3 ++ flat_map (kept_column 3) ts;
       c4 ++ flat_map (kept_column 4) ts; c5 ++ flat_map (kept_column 5) ts].
Proof.
  revert c0 c1 c2 c3 c4 c5. induction ts as [|t ts IH]; intros.
  - cbn [map fold_left flat_map]. now rewrite !app_nil_r.
  - cbn [map fold_left flat_map]. rewrite concat_kept_rows, IH.
    now rewrite !app_assoc.
Qed.

Lemma fold_concat_nil (ts : list raw_table) :
  fold_left concat (map kept_rows ts) []
  = match ts with
    | [] => []
    | _ :: _ =>
        combine expected_columns
          (map (fun j => flat_map (kept_column j) ts) (seq 0 6))
    end.
Proof.
  destruct ts as [|t ts]; [reflexivity|].
  cbn [map fold_left]. rewrite concat_nil_kept_rows.
  unfold kept_rows. cbn [seq map]. rewrite fold_concat_six. reflexivity.
Qed.

(** ** Rows of NaN only *)

Lemma keep_row_text (x : cell) : keep_row x = true -> isna x = false.
Proof. destruct x; [reflexivity | discriminate]. Qed.


Lemma select_by_test {A : Type} (p : A -> bool) (y : list A) :
  Forall (fun x => p x = true) (select (map p y) y).
Proof.
  induction y as [|x y IH]; simpl; [constructor|].
  destruct (p x) eqn:E; [constructor; assumption | assumption].
Qed.

Lemma select_length_le {A B : Type} (mask : list bool) (y : list A) (c : list B) :
  (length mask <= length y)%nat ->
  (length (select mask c) <= length (select mask y))%nat.
Proof.
  revert y c. induction mask as [|b mask IH]; intros y c H; [simpl; lia|].
  destruct y as [|x y]; [simpl in H; lia|].
  destruct c as [|z c]; [simpl; lia|].
  simpl in H. specialize (IH y c ltac:(lia)).
  simpl. destruct b; simpl; lia.
Qed.

Lemma kept_year_text (ts : list raw_table) :
  Forall (fun x => isna x = false) (flat_map (kept_column 0) ts).
Proof.
  induction ts as [|t ts IH]; simpl; [constructor|].
  apply Forall_app. split; [|exact IH].
  unfold kept_column.
  eapply Forall_impl; [|apply select_by_test]. exact keep_row_text.
Qed.

Lemma kept_column_length (j : nat) (ts : list raw_table) :
  (length (flat_map (kept_column j) ts)
   <= length (flat_map (kept_column 0) ts))%nat.
Proof.
  induction ts as [|t ts IH]; simpl; [lia|].
  rewrite !length_app.
  assert ((length (kept_column j t) <= length (kept_column 0 t))%nat).
  { unfold kept_column. apply select_length_le. now rewrite length_map. }
  lia.
Qed.

Lemma map_seq_all_true (f : nat -> bool) (s n : nat) :
  (forall i, (s <= i < s + n)%nat -> f i = true) ->
  map f (seq s n) = repeat true n.
Proof.
  revert s. induction n as [|n IH]; intros s H; simpl; [reflexivity|].
  rewrite H by lia. f_equal. apply IH. intros i Hi. apply H. lia.
Qed.

Lemma select_repeat_true {A : Type} (n : nat) (c : list A) :
  (length c <= n)%nat -> select (repeat true n) c = c.
Proof.
  revert c. induction n as [|n IH]; intros [|a c] H; simpl in *;
    try reflexivity; try lia.
  f_equal. apply IH. lia.
Qed.

Lemma dropna_all_id (l : str) (y : list cell) (rest : frame cell) :
  Forall (fun x => isna x = false) y ->
  Forall (fun lc => (length (snd lc) <= length y)%nat) rest ->
  dropna_all ((l, y) :: rest) = (l, y) :: rest.
Proof.
  intros Hy Hrest. unfold dropna_all.
  rewrite (map_seq_all_true _ 0 (nrows ((l, y) :: rest))).
  - unfold select_rows. cbn [nrows map fst snd].
    rewrite select_repeat_true by lia. f_equal.
    induction Hrest as [|[k c] rest Hc Hrest IH]; [reflexivity|].
    cbn [map fst snd]. simpl in Hc. rewrite select_repeat_true by exact Hc.
    now rewrite IH.
  - cbn [nrows]. intros i Hi. unfold row_all_na. cbn [forallb snd].
    rewrite Forall_forall in Hy. rewrite (Hy (nth i y NaN)); [reflexivity|].
    apply nth_In. lia.
Qed.

Lemma dropna_all_kept (ts : list raw_table) :
  let df := combine expected_columns
              (map (fun j => flat_map (kept_column j) ts) (seq 0 6)) in
  dropna_all df = df.
Proof.
  cbn [seq map]. unfold expected_columns. cbn [combine].
  apply dropna_all_id; [apply kept_year_text|].
  repeat constructor; apply kept_column_length.
Qed.

(** The records that reach the analysis, for tables of at most six
    columns: the tables of fewer columns are skipped with a warning each,
    and the rows of the others are kept by the test on the year, in the
    order of the tables. *)
Lemma normalize_eq (raw_dfs : list raw_table) :
  Forall (fun t => (length t <= 6)%nat) raw_dfs ->
  normalize raw_dfs
  = (map skipped (filter (fun t => negb (has_width 6 t)) raw_dfs),
     Ok (normalized_frame (filter (has_width 6) raw_dfs))).
Proof.
  intros H. unfold normalize. rewrite (merge_tables_fold _ _ H).
  rewrite bind_Ok, fold_concat_nil. unfold normalized_frame.
  destruct (filter (has_width 6) raw_dfs) as [|t ts]; [reflexivity|].
  rewrite dropna_all_kept. reflexivity.
Qed.

(** C4. A table of seven columns stops the run: giving six labels to its
    seven columns raises, and the run shows the error and no result, also
    when a table of six columns came before it. *)
Theorem wide_table_aborts_run (to_numeric : str -> option Q) :
  main to_numeric [seven_column_table]
    = ([], ErrorShown (ValueError_length_mismatch 7 6))
  /\ main to_numeric [filter_scenario_table; seven_column_table]
    = ([], ErrorShown (ValueError_length_mismatch 7 6))
  /\ main to_numeric [[[NaN]]; seven_column_table]
    = ([SkippedTable [[NaN]]], ErrorShown (ValueError_length_mismatch 7 6)).
Proof. repeat split; reflexivity. Qed.


Lemma marker_not_in_year (a b c : N) (tail : str) :
  tail = [] \/ tail = [10%N] ->
  contains summary_marker (a :: b :: c :: tail) = false.
Proof.
  intros [-> | ->]; cbn; now rewrite ?andb_false_r.
Qed.

Lemma keep_row_iff (x : cell) :
  keep_row x = true <->
  exists a b c tail,
    astype_str x = a :: b :: c :: tail
    /\ (tail = [] \/ tail = [10%N])
    /\ isdecimal a = true /\ isdecimal b = true /\ isdecimal c = true.
Proof.
  unfold keep_row. split.
  - intros H. apply andb_true_iff in H as [Hm _].
    destruct (astype_str x) as [|a [|b [|c [|nl [|z s]]]]]; try discriminate Hm.
    + exists a, b, c, []. simpl in Hm.
      apply andb_true_iff in Hm as [Hm Hc]. apply andb_true_iff in Hm as [Ha Hb].
      now repeat split; try left.
    + exists a, b, c, [nl]. simpl in Hm.
      apply andb_true_iff in Hm as [Hm Hnl]. apply andb_true_iff in Hm as [Hm Hc].
      apply andb_true_iff in Hm as [Ha Hb]. apply N.eqb_eq in Hnl. subst nl.
      now repeat split; try right.
  - intros (a & b & c & tail & -> & Htail & Ha & Hb & Hc).
    rewrite (marker_not_in_year a b c tail Htail).
    destruct Htail as [-> | ->]; simpl; now rewrite Ha, Hb, Hc.
Qed.



(** ** The scenarios of the specification *)

Example scenario_two_courses :
  exists shown full,
    main to_numeric_decimal [two_course_table] = ([], Results 3 125 shown full)
    /\ getitem L_name shown = Ok [VStr (u "Intro")]
    /\ getitem L_credits shown = Ok [VNum 3].
Proof. eexists _, _. repeat split; reflexivity. Qed.

Example scenario_records_of_two_courses :
  normalize [two_course_table] = ([], Ok two_course_frame).
Proof. reflexivity. Qed.

Example scenario_no_tables (to_numeric : str -> option Q) :
  main to_numeric [] = ([], NoTablesExtracted).
Proof. reflexivity. Qed.

Example scenario_no_valid_rows (to_numeric : str -> option Q) :
  main to_numeric [padded_year_table] = ([], NoValidData)
  /\ main to_numeric [[[NaN]]] = ([SkippedTable [[NaN]]], NoValidData).
Proof. split; reflexivity. Qed.

Example scenario_zero_credit_pass :
  exists passed df',
    analyze_student_grades to_numeric_decimal zero_credit_pass_frame
      = Ok (0, 128, passed, df')
    /\ parse_gpa_to_numeric (u "通過") = 999.0%float.
Proof. eexists _, _. split; reflexivity. Qed.

(** * Further properties of the code *)

(** ** Trimming *)

Lemma lstrip_spaces (w s : str) :
  Forall (fun c => isspace c = true) w -> lstrip (w ++ s) = lstrip s.
Proof.
  induction 1 as [|c w Hc Hw IH]; simpl; [reflexivity|]. now rewrite Hc.
Qed.

Lemma lstrip_nil_spaces (s : str) :
  lstrip s = [] -> Forall (fun c => isspace c = true) s.
Proof.
  induction s as [|c s IH]; simpl; intros H; [constructor|].
  destruct (isspace c) eqn:E; [|discriminate H].
  constructor; [exact E | now apply IH].
Qed.

Lemma lstrip_head (s : str) :
  lstrip s = [] \/ exists c s', lstrip s = c :: s' /\ isspace c = false.
Proof.
  induction s as [|c s IH]; simpl; [now left|].
  destruct (isspace c) eqn:E; [exact IH|]. right. now exists c, s.
Qed.

Lemma lstrip_fixed (c : N) (s : str) : isspace c = false -> lstrip (c :: s) = c :: s.
Proof. intros H. simpl. now rewrite H. Qed.

Lemma lstrip_app (s t : str) : lstrip s <> [] -> lstrip (s ++ t) = lstrip s ++ t.
Proof.
  induction s as [|c s IH]; simpl; intros H; [contradiction|].
  destruct (isspace c); [now apply IH | reflexivity].
Qed.

Lemma lstrip_snoc (s : str) (c : N) :
  isspace c = false -> lstrip (s ++ [c]) = lstrip s ++ [c].
Proof.
  intros Hc. destruct (lstrip s) as [|d s'] eqn:E.
  - rewrite lstrip_spaces by now apply lstrip_nil_spaces.
    now apply lstrip_fixed.
  - rewrite lstrip_app by congruence. now rewrite E.
Qed.

Lemma lstrip_idem (s : str) : lstrip (lstrip s) = lstrip s.
Proof.
  destruct (lstrip_head s) as [-> | (c & s' & -> & Hc)]; [reflexivity|].
  now apply lstrip_fixed.
Qed.

Lemma rstrip_spaces (s w : str) :
  Forall (fun c => isspace c = true) w -> rstrip (s ++ w) = rstrip s.
Proof.
  intros Hw. unfold rstrip. rewrite rev_app_distr, lstrip_spaces; [reflexivity|].
  apply Forall_forall. intros c Hc. apply in_rev in Hc.
  rewrite Forall_forall in Hw. now apply Hw.
Qed.

Lemma rstrip_head (c : N) (s : str) :
  isspace c = false -> exists s', rstrip (c :: s) = c :: s'.
Proof.
  intros Hc. unfold rstrip. cbn [rev]. rewrite lstrip_snoc by exact Hc.
  rewrite rev_app_distr. cbn [rev app]. now eexists.
Qed.

Lemma strip_idem (s : str) : strip (strip s) = strip s.
Proof.
  unfold strip.
  assert (Hl : lstrip (rstrip (lstrip s)) = rstrip (lstrip s)).
  { destruct (lstrip_head s) as [-> | (c & s' & -> & Hc)]; [reflexivity|].
    destruct (rstrip_head c s' Hc) as (r & ->). now apply lstrip_fixed. }
  rewrite Hl. unfold rstrip at 1 2. now rewrite rev_involutive, lstrip_idem.
Qed.

Lemma strip_padding (w1 s w2 : str) :
  Forall (fun c => isspace c = true) w1 ->
  Forall (fun c => isspace c = true) w2 ->
  strip (w1 ++ s ++ w2) = strip s.
Proof.
  intros H1 H2. unfold strip. rewrite lstrip_spaces by exact H1.
  destruct (lstrip s) as [|c s'] eqn:E.
  - assert (Hall : Forall (fun c => isspace c = true) (s ++ w2)).
    { apply Forall_app. split; [now apply lstrip_nil_spaces | exact H2]. }
    pose proof (lstrip_spaces (s ++ w2) [] Hall) as Hnil.
    rewrite app_nil_r in Hnil. now rewrite Hnil.
  - rewrite lstrip_app by congruence. rewrite E. now apply rstrip_spaces.
Qed.

(** ** More on the grade points *)

(** X1. White space before and after a grade does not change its point. *)
Theorem parse_gpa_ignores_padding (w1 s w2 : str) :
  Forall (fun c => isspace c = true) w1 ->
  Forall (fun c => isspace c = true) w2 ->
  parse_gpa_to_numeric (w1 ++ s ++ w2) = parse_gpa_to_numeric s.
Proof.
  intros H1 H2. unfold parse_gpa_to_numeric. now rewrite strip_padding.
Qed.

Lemma parse_gpa_ignores_padding_witness :
  Forall (fun c => isspace c = true) [9; 12288]%N
  /\ Forall (fun c => isspace c = true) [32; 10]%N
  /\ parse_gpa_to_numeric ([9; 12288]%N ++ u "C-" ++ [32; 10]%N)
     = parse_gpa_to_numeric (u "C-").
Proof.
  assert (H1 : Forall (fun c => isspace c = true) [9; 12288]%N)
    by (repeat constructor).
  assert (H2 : Forall (fun c => isspace c = true) [32; 10]%N)
    by (repeat constructor).
  split; [exact H1|]. split; [exact H2|].
  exact (parse_gpa_ignores_padding _ (u "C-") _ H1 H2).
Defined.

Lemma parse_gpa_cases (s : str) :
  parse_gpa_to_numeric s = 0.0%float
  \/ In (strip s, parse_gpa_to_numeric s) gpa_map.
Proof.
  destruct (in_dec str_eq_dec (strip s) (map fst gpa_map)) as [Hin|Hout].
  - right. now apply dict_get_hit.
  - left. now apply parse_gpa_default.
Qed.

(** X2. Every grade point lies between 0.0 and 999.0, whatever the string. *)
Theorem grade_point_range (s : str) :
  PrimFloat.leb 0.0%float (parse_gpa_to_numeric s) = true
  /\ PrimFloat.leb (parse_gpa_to_numeric s) 999.0%float = true.
Proof.
  destruct (parse_gpa_cases s) as [-> | Hin]; [split; reflexivity|].
  simpl in Hin.
  repeat (destruct Hin as [Hin|Hin];
          [injection Hin as _ <-; split; reflexivity|]).
  contradiction.
Qed.

(** X3. A grade reaches the threshold 1.7 exactly when, trimmed, it is one
    of A+, A, A-, B+, B, B-, C+, C, C- or one of the two marks of credit. *)
Theorem passing_grades_are_exactly (s : str) :
  PrimFloat.leb 1.7%float (parse_gpa_to_numeric s) = true
  <-> In (strip s) (map u passing_grades).
Proof.
  split.
  - intros H. destruct (parse_gpa_cases s) as [E | Hin].
    + rewrite E in H. discriminate H.
    + simpl in Hin.
      repeat (destruct Hin as [Hin|Hin];
              [injection Hin as Hk Hv; rewrite <- Hv in H;
               first [discriminate H | rewrite <- Hk; vm_compute; tauto]|]).
      contradiction.
  - intros Hin. unfold parse_gpa_to_numeric. simpl in Hin.
    repeat (destruct Hin as [Hin|Hin]; [rewrite <- Hin; reflexivity|]).
    contradiction.
Qed.

(** ** More on the analysis *)

Lemma lookup_None {A : Type} (l : str) (df : frame A) :
  lookup l df = None <-> ~ In l (columns df).
Proof.
  induction df as [|[k c] df IH]; simpl; [tauto|].
  destruct (eqb l k) eqn:E.
  - apply eqb_eq in E. subst. split; [discriminate | intros H; exfalso; auto].
  - apply eqb_neq in E. rewrite IH. split; [intros H [H'|H']; congruence | tauto].
Qed.

Lemma lookup_Some_In {A : Type} (l : str) (df : frame A) :
  In l (columns df) -> exists c, lookup l df = Some c.
Proof.
  intros H. destruct (lookup l df) as [c|] eqn:E; [now exists c|].
  apply lookup_None in E. contradiction.
Qed.

Lemma columns_astext (df : frame str) : columns (astext df) = columns df.
Proof. unfold columns, astext. rewrite map_map. reflexivity. Qed.

Lemma columns_select_rows {A : Type} (mask : list bool) (df : frame A) :
  columns (select_rows mask df) = columns df.
Proof. unfold columns, select_rows. rewrite map_map. reflexivity. Qed.

Lemma columns_setitem_old {A : Type} (l : str) (c : list A) (df : frame A) :
  In l (columns df) -> columns (setitem l c df) = columns df.
Proof.
  induction df as [|[k c'] df IH]; simpl; [contradiction|].
  intros H. destruct (eqb l k) eqn:E; [reflexivity|].
  simpl. f_equal. apply IH. apply eqb_neq in E. destruct H; congruence.
Qed.

Lemma columns_setitem_new {A : Type} (l : str) (c : list A) (df : frame A) :
  ~ In l (columns df) -> columns (setitem l c df) = columns df ++ [l].
Proof.
  induction df as [|[k c'] df IH]; simpl; [reflexivity|].
  intros H. destruct (eqb l k) eqn:E.
  - apply eqb_eq in E. subst. exfalso. auto.
  - simpl. f_equal. apply IH. tauto.
Qed.

(** X4. Without a credits column the analysis raises [KeyError] for that
    label. *)
Theorem analysis_needs_credits_column
  (to_numeric : str -> option Q) (df : frame str) :
  ~ In L_credits (columns df) ->
  analyze_student_grades to_numeric df = Raise (KeyError L_credits).
Proof.
  intros H. apply lookup_None in H. unfold analyze_student_grades, getitem.
  now rewrite H.
Qed.

Lemma analysis_needs_credits_column_witness :
  ~ In L_credits (columns no_credits_frame)
  /\ analyze_student_grades to_numeric_decimal no_credits_frame
     = Raise (KeyError L_credits).
Proof.
  assert (H : ~ In L_credits (columns no_credits_frame)).
  { apply lookup_None. reflexivity. }
  split; [exact H|].
  exact (analysis_needs_credits_column to_numeric_decimal no_credits_frame H).
Defined.

(** X5. With a credits column and without a GPA column the analysis raises
    [KeyError] for the label GPA. *)
Theorem analysis_needs_gpa_column
  (to_numeric : str -> option Q) (df : frame str) :
  In L_credits (columns df) ->
  ~ In L_GPA (columns df) ->
  analyze_student_grades to_numeric df = Raise (KeyError L_GPA).
Proof.
  intros Hc Hg. destruct (lookup_Some_In _ _ Hc) as (cs & Hcs).
  apply lookup_None in Hg.
  destruct labels_distinct as (Hcg & _).
  unfold analyze_student_grades.
  rewrite (getitem_lookup _ _ _ Hcs), bind_Ok.
  unfold getitem at 1.
  rewrite lookup_setitem_other by exact Hcg.
  rewrite lookup_astext, Hg. reflexivity.
Qed.

Lemma analysis_needs_gpa_column_witness :
  In L_credits (columns no_gpa_frame)
  /\ ~ In L_GPA (columns no_gpa_frame)
  /\ analyze_student_grades to_numeric_decimal no_gpa_frame
     = Raise (KeyError L_GPA).
Proof.
  assert (Hc : In L_credits (columns no_gpa_frame)) by (right; left; reflexivity).
  assert (Hg : ~ In L_GPA (columns no_gpa_frame)).
  { apply lookup_None. reflexivity. }
  split; [exact Hc|]. split; [exact Hg|].
  exact (analysis_needs_gpa_column to_numeric_decimal no_gpa_frame Hc Hg).
Defined.

(** X6. On a frame that has the credits and GPA columns and neither of the
    two columns the analysis sets, the caller's frame afterwards has its
    old labels in their order, then [GPA_Numeric], then [是否通過]; the frame
    of passed courses has the same labels. *)
Theorem analysis_appends_two_labels
  (to_numeric : str -> option Q) (df : frame str) :
  In L_credits (columns df) ->
  In L_GPA (columns df) ->
  ~ In L_GPA_Numeric (columns df) ->
  ~ In L_passed (columns df) ->
  exists total remaining passed df',
    analyze_student_grades to_numeric df = Ok (total, remaining, passed, df')
    /\ columns df' = columns df ++ [L_GPA_Numeric; L_passed]
    /\ columns passed = columns df'.
Proof.
  intros Hc Hg Hn Hp.
  destruct (lookup_Some_In _ _ Hc) as (cs & Hcs).
  destruct (lookup_Some_In _ _ Hg) as (gs & Hgs).
  pose proof (analyze_student_grades_eq to_numeric df cs gs Hcs Hgs) as E.
  cbv zeta in E. eexists _, _, _, _. split; [exact E|].
  destruct labels_distinct as (Hcg & Hcn & Hcp & Hng & Hpg & Hnp).
  assert (H1 : columns (setitem L_credits
                 (map VNum (fillna 0 (map to_numeric cs))) (astext df))
               = columns df).
  { rewrite columns_setitem_old; rewrite columns_astext; [reflexivity | exact Hc]. }
  split; [|apply columns_select_rows].
  unfold frame_after.
  rewrite columns_setitem_new.
  - rewrite columns_setitem_new by now rewrite H1.
    rewrite H1, <- app_assoc. reflexivity.
  - rewrite columns_setitem_new by now rewrite H1.
    rewrite H1. intros Hin. apply in_app_or in Hin as [Hin|[Hin|[]]];
      [contradiction | congruence].
Qed.

Lemma analysis_appends_two_labels_witness :
  In L_credits (columns two_course_frame)
  /\ In L_GPA (columns two_course_frame)
  /\ ~ In L_GPA_Numeric (columns two_course_frame)
  /\ ~ In L_passed (columns two_course_frame)
  /\ exists total remaining passed df',
       analyze_student_grades to_numeric_decimal two_course_frame
         = Ok (total, remaining, passed, df')
       /\ columns df' = expected_columns ++ [L_GPA_Numeric; L_passed].
Proof.
  assert (Hc : In L_credits (columns two_course_frame))
    by (do 4 right; left; reflexivity).
  assert (Hg : In L_GPA (columns two_course_frame))
    by (do 5 right; left; reflexivity).
  assert (Hn : ~ In L_GPA_Numeric (columns two_course_frame))
    by (apply lookup_None; reflexivity).
  assert (Hp : ~ In L_passed (columns two_course_frame))
    by (apply lookup_None; reflexivity).
  split; [exact Hc|]. split; [exact Hg|]. split; [exact Hn|]. split; [exact Hp|].
  destruct (analysis_appends_two_labels to_numeric_decimal two_course_frame
              Hc Hg Hn Hp) as (total & remaining & passed & df' & E & Hcols & _).
  exists total, remaining, passed, df'. split; [exact E | exact Hcols].
Defined.

Lemma select_count {A B : Type} (p : A -> bool) (y : list A) (c : list B) :
  length c = length y ->
  length (select (map p y) c) = length (filter p y).
Proof.
  revert c. induction y as [|x y IH]; intros [|z c] H; try discriminate H;
    simpl; [reflexivity|].
  injection H as H. destruct (p x); simpl; now rewrite IH.
Qed.

(** X9. When every column of the frame has [n] entries, every column of the
    frame of passed courses has as many entries as there are passing
    records, and no more than [n]. *)
Theorem passed_frame_row_count
  (to_numeric : str -> option Q) (df : frame str) (cs gs : list str) (n : nat) :
  getitem L_credits df = Ok cs ->
  getitem L_GPA df = Ok gs ->
  (forall l c, getitem l df = Ok c -> length c = n) ->
  let rs := records (fillna 0 (map to_numeric cs)) gs in
  exists total remaining passed df',
    analyze_student_grades to_numeric df = Ok (total, remaining, passed, df')
    /\ (forall l c, getitem l passed = Ok c ->
        length c = length (filter record_passes rs))
    /\ (length (filter record_passes rs) <= n)%nat.
Proof.
  intros Hc Hg Hwf rs.
  pose proof (Hwf _ _ Hc) as Hnc. pose proof (Hwf _ _ Hg) as Hng'.
  apply getitem_Ok in Hc, Hg.
  pose proof (analyze_student_grades_eq to_numeric df cs gs Hc Hg) as E.
  cbv zeta in E. eexists _, _, _, _. split; [exact E|].
  assert (Hrs : length rs = n).
  { unfold rs, records, fillna. rewrite length_combine, !length_map. lia. }
  split.
  - intros l c H. apply getitem_Ok in H. rewrite lookup_select_rows in H.
    destruct (lookup l (frame_after _ _ _)) as [c0|] eqn:E0; [|discriminate H].
    simpl in H. injection H as <-.
    rewrite passed_mask_records. fold rs. apply select_count.
    rewrite Hrs. revert E0. unfold frame_after.
    destruct (str_eq_dec L_passed l) as [<-|N1].
    { rewrite lookup_setitem_same. intros [= <-]. now rewrite !length_map. }
    rewrite lookup_setitem_other by exact N1.
    destruct (str_eq_dec L_GPA_Numeric l) as [<-|N2].
    { rewrite lookup_setitem_same. intros [= <-]. now rewrite !length_map. }
    rewrite lookup_setitem_other by exact N2.
    destruct (str_eq_dec L_credits l) as [<-|N3].
    { rewrite lookup_setitem_same. intros [= <-].
      unfold fillna. now rewrite !length_map. }
    rewrite lookup_setitem_other by exact N3.
    rewrite lookup_astext. destruct (lookup l df) as [c1|] eqn:E1; [|discriminate].
    intros [= <-]. rewrite length_map. apply (Hwf l). now apply getitem_Ok.
  - rewrite <- Hrs. apply filter_length_le.
Qed.

Lemma passed_frame_row_count_witness :
  getitem L_credits two_course_frame = Ok [u "3"; u "1"]
  /\ getitem L_GPA two_course_frame = Ok [u "A"; u "F"]
  /\ (forall l c, getitem l two_course_frame = Ok c -> length c = 2%nat)
  /\ exists total remaining passed df',
       analyze_student_grades to_numeric_decimal two_course_frame
         = Ok (total, remaining, passed, df')
       /\ (forall l c, getitem l passed = Ok c -> length c = 1%nat).
Proof.
  assert (Hwf : forall l c, getitem l two_course_frame = Ok c -> length c = 2%nat).
  { intros l c H. apply getitem_Ok in H. unfold two_course_frame in H.
    cbn in H.
    repeat match type of H with
           | (if ?b then _ else _) = _ => destruct b
           end; try discriminate H; now injection H as <-. }
  split; [reflexivity|]. split; [reflexivity|]. split; [exact Hwf|].
  destruct (passed_frame_row_count to_numeric_decimal two_course_frame
              [u "3"; u "1"] [u "A"; u "F"] 2 eq_refl eq_refl Hwf)
    as (total & remaining & passed & df' & E & Hlen & _).
  exists total, remaining, passed, df'. split; [exact E|].
  intros l c H. rewrite (Hlen l c H). reflexivity.
Defined.

(** ** More on the tables *)

Lemma lookup_six {A : Type} (l : str) (c a0 a1 a2 a3 a4 a5 : list A) :
  lookup l (combine expected_columns [a0; a1; a2; a3; a4; a5]) = Some c <->
  (l = L_year /\ c = a0) \/ (l = L_term /\ c = a1) \/ (l = L_code /\ c = a2)
  \/ (l = L_name /\ c = a3) \/ (l = L_credits /\ c = a4) \/ (l = L_GPA /\ c = a5).
Proof.
  unfold expected_columns. cbn [combine lookup]. split.
  - repeat match goal with
           | |- context [eqb l ?k] =>
               let E := fresh "E" in destruct (eqb l k) eqn:E;
               [apply eqb_eq in E; intros [= <-]; tauto|]
           end.
    discriminate.
  - intros H.
    repeat (destruct H as [[-> ->] | H]; [reflexivity|]).
    destruct H as [-> ->]. reflexivity.
Qed.

Lemma merge_tables_until_wide
  (pre : list raw_table) (t : raw_table) (post : list raw_table) (full : frame cell) :
  Forall (fun t => (length t <= 6)%nat) pre ->
  (6 < length t)%nat ->
  merge_tables (pre ++ t :: post) full
  = (map skipped (filter (fun t => negb (has_width 6 t)) pre),
     Raise (ValueError_length_mismatch (length t) 6)).
Proof.
  intros Hpre Ht. revert full.
  induction Hpre as [|p pre Hp Hpre IH]; intros full.
  - apply merge_tables_wide. exact Ht.
  - cbn [app filter]. unfold has_width in *.
    destruct (Nat.eqb (length p) 6) eqn:E.
    + apply Nat.eqb_eq in E. rewrite merge_tables_six by exact E. apply IH.
    + apply Nat.eqb_neq in E. rewrite merge_tables_narrow by lia.
      rewrite IH. reflexivity.
Qed.

(** X10. When a table of more than six columns comes after tables of at
    most six, the run ends with the length mismatch of that table: the
    warnings of the narrower tables before it are shown, no result is. *)
Theorem first_wide_table_ends_run
  (to_numeric : str -> option Q)
  (pre : list raw_table) (t : raw_table) (post : list raw_table) :
  Forall (fun t => (length t <= 6)%nat) pre ->
  (6 < length t)%nat ->
  main to_numeric (pre ++ t :: post)
  = (map skipped (filter (fun t => negb (has_width 6 t)) pre),
     ErrorShown (ValueError_length_mismatch (length t) 6)).
Proof.
  intros Hpre Ht. unfold main, normalize.
  rewrite (merge_tables_until_wide pre t post [] Hpre Ht).
  destruct pre; reflexivity.
Qed.

Lemma first_wide_table_ends_run_witness :
  Forall (fun t => (length t <= 6)%nat) [[[NaN]]; two_course_table]
  /\ (6 < length seven_column_table)%nat
  /\ main to_numeric_decimal
       ([[[NaN]]; two_course_table] ++ seven_column_table :: [two_course_table])
     = ([SkippedTable [[NaN]]], ErrorShown (ValueError_length_mismatch 7 6)).
Proof.
  assert (H : Forall (fun t => (length t <= 6)%nat) [[[NaN]]; two_course_table]).
  { repeat constructor. }
  assert (Hw : (6 < length seven_column_table)%nat) by (simpl; lia).
  split; [exact H|]. split; [exact Hw|].
  exact (first_wide_table_ends_run to_numeric_decimal _ _ [two_course_table] H Hw).
Defined.

Lemma normalized_frame_lookup (ts : list raw_table) (l : str) (c : list str) :
  lookup l (normalized_frame ts) = Some c ->
  ts <> []
  /\ exists j, (j < 6)%nat /\ l = nth j expected_columns []
               /\ c = normalized_column j ts.
Proof.
  destruct ts as [|t ts]; [discriminate|].
  unfold normalized_frame. cbn [seq map]. intros H. apply lookup_six in H.
  split; [discriminate|].
  destruct H as [[-> ->]|[[-> ->]|[[-> ->]|[[-> ->]|[[-> ->]|[-> ->]]]]]];
    [exists 0%nat | exists 1%nat | exists 2%nat | exists 3%nat | exists 4%nat
     | exists 5%nat]; (split; [lia | split; reflexivity]).
Qed.

Lemma normalized_frame_column (ts : list raw_table) (j : nat) :
  ts <> [] -> (j < 6)%nat ->
  lookup (nth j expected_columns []) (normalized_frame ts)
  = Some (normalized_column j ts).
Proof.
  intros Hts Hj. destruct ts as [|t ts]; [contradiction|].
  unfold normalized_frame. cbn [seq map].
  do 6 (destruct j as [|j]; [reflexivity|]). lia.
Qed.

Lemma normalized_column_app (j : nat) (a b : list raw_table) :
  normalized_column j (a ++ b) = normalized_column j a ++ normalized_column j b.
Proof. unfold normalized_column. now rewrite flat_map_app, map_app. Qed.

(** X11. The records of the tables of two lists, taken together, are those
    of the first list followed by those of the second, column by column. *)
Theorem records_follow_table_order
  (r1 r2 : list raw_table) (F1 F2 : frame str) (l : str) (c1 c2 : list str) :
  Forall (fun t => (length t <= 6)%nat) r1 ->
  Forall (fun t => (length t <= 6)%nat) r2 ->
  snd (normalize r1) = Ok F1 -> getitem l F1 = Ok c1 ->
  snd (normalize r2) = Ok F2 -> getitem l F2 = Ok c2 ->
  exists F, snd (normalize (r1 ++ r2)) = Ok F /\ getitem l F = Ok (c1 ++ c2).
Proof.
  intros H1 H2 E1 G1 E2 G2.
  rewrite normalize_eq in E1, E2 by assumption. simpl in E1, E2.
  injection E1 as <-. injection E2 as <-.
  apply getitem_Ok in G1, G2.
  apply normalized_frame_lookup in G1 as (N1 & j & Hj & -> & ->).
  apply normalized_frame_lookup in G2 as (N2 & j' & Hj' & Hl & ->).
  assert (j' = j) as ->.
  { revert Hl. do 6 (destruct j as [|j]; [
      do 6 (destruct j' as [|j']; [first [reflexivity | intros Hl; vm_compute in Hl; discriminate Hl]|]); lia|]).
    lia. }
  eexists. split.
  - rewrite normalize_eq by (apply Forall_app; now split). reflexivity.
  - apply getitem_Ok. rewrite filter_app.
    rewrite normalized_frame_column; [|intros H; apply app_eq_nil in H; tauto | exact Hj].
    now rewrite normalized_column_app.
Qed.

Lemma records_follow_table_order_witness :
  Forall (fun t => (length t <= 6)%nat) [two_course_table]
  /\ Forall (fun t => (length t <= 6)%nat) [filter_scenario_table]
  /\ exists F,
       snd (normalize ([two_course_table] ++ [filter_scenario_table])) = Ok F
       /\ getitem L_name F = Ok ([u "Intro"; u "Lab"] ++ [u "Intro"]).
Proof.
  assert (H1 : Forall (fun t => (length t <= 6)%nat) [two_course_table])
    by (repeat constructor).
  assert (H2 : Forall (fun t => (length t <= 6)%nat) [filter_scenario_table])
    by (repeat constructor).
  split; [exact H1|]. split; [exact H2|].
  exact (records_follow_table_order [two_course_table] [filter_scenario_table]
           _ _ L_name [u "Intro"; u "Lab"] [u "Intro"]
           H1 H2 eq_refl eq_refl eq_refl eq_refl).
Defined.

(** ** The records that reach the analysis *)

Lemma isdecimal_not_space (c : N) : isdecimal c = true -> isspace c = false.
Proof.
  unfold isdecimal. intros H. apply existsb_exists in H as (z & Hin & Hr).
  apply andb_true_iff in Hr as [Hlo Hhi].
  apply N.leb_le in Hlo. apply N.ltb_lt in Hhi.
  destruct (isspace c) eqn:E; [exfalso | reflexivity].
  unfold isspace in E.
  rewrite !orb_true_iff, !andb_true_iff, !N.leb_le, !N.eqb_eq in E.
  unfold Nd_zeros in Hin. cbn [In] in Hin.
  repeat (destruct Hin as [Hin|Hin]; [subst z; lia|]).
  exact Hin.
Qed.

Lemma strip_year (a b c : N) (tail : str) :
  isdecimal a = true -> isdecimal c = true ->
  tail = [] \/ tail = [10%N] ->
  strip (a :: b :: c :: tail) = [a; b; c].
Proof.
  intros Ha Hc Htail.
  apply isdecimal_not_space in Ha, Hc.
  unfold strip. rewrite lstrip_fixed by exact Ha.
  unfold rstrip. destruct Htail as [-> | ->]; cbn [rev app].
  - now rewrite lstrip_fixed by exact Hc.
  - change (lstrip [10%N; c; b; a]) with (lstrip [c; b; a]).
    now rewrite lstrip_fixed by exact Hc.
Qed.

Lemma kept_year_passes (ts : list raw_table) :
  Forall (fun x => keep_row x = true) (flat_map (kept_column 0) ts).
Proof.
  induction ts as [|t ts IH]; simpl; [constructor|].
  apply Forall_app. split; [apply select_by_test | exact IH].
Qed.

(** X12. In the records built from tables of at most six columns, every
    year is a string of exactly three decimal digits: a newline that the
    test let through is trimmed away. *)
Theorem normalized_years_are_three_digits
  (raw_dfs : list raw_table) (F : frame str) (years : list str) :
  Forall (fun t => (length t <= 6)%nat) raw_dfs ->
  snd (normalize raw_dfs) = Ok F ->
  getitem L_year F = Ok years ->
  Forall (fun y => exists a b c,
            y = [a; b; c]
            /\ isdecimal a = true /\ isdecimal b = true /\ isdecimal c = true)
         years.
Proof.
  intros H E G. rewrite normalize_eq in E by exact H. simpl in E.
  injection E as <-. apply getitem_Ok in G.
  destruct (filter (has_width 6) raw_dfs) as [|t ts]; [discriminate G|].
  unfold normalized_frame in G. cbn [seq map] in G. apply lookup_six in G.
  destruct G as [[_ ->]|[[G _]|[[G _]|[[G _]|[[G _]|[G _]]]]]];
    try (vm_compute in G; discriminate G).
  unfold normalized_column. apply Forall_map.
  eapply Forall_impl; [|apply kept_year_passes].
  intros x Hx. apply keep_row_iff in Hx as (a & b & c & tail & -> & Ht & Ha & Hb & Hc).
  exists a, b, c. split; [now apply strip_year | tauto].
Qed.

Lemma normalized_years_are_three_digits_witness :
  Forall (fun t => (length t <= 6)%nat) [filter_scenario_table]
  /\ getitem L_year (normalized_frame [filter_scenario_table]) = Ok [u "112"]
  /\ Forall (fun y => exists a b c,
               y = [a; b; c]
               /\ isdecimal a = true /\ isdecimal b = true /\ isdecimal c = true)
            [u "112"].
Proof.
  assert (H : Forall (fun t => (length t <= 6)%nat) [filter_scenario_table])
    by (repeat constructor).
  split; [exact H|]. split; [reflexivity|].
  exact (normalized_years_are_three_digits [filter_scenario_table] _ _ H
           eq_refl eq_refl).
Defined.

Lemma lookup_strip_columns (l : str) (df : frame cell) :
  lookup l (strip_columns df)
  = option_map (map (fun x => strip (astype_str x))) (lookup l df).
Proof.
  induction df as [|[k c] df IH]; simpl; [reflexivity|].
  destruct (eqb l k); [reflexivity | exact IH].
Qed.

(** X13. Every field of every record that reaches the analysis is trimmed:
    trimming it again changes nothing. *)
Theorem normalized_fields_are_trimmed
  (raw_dfs : list raw_table) (F : frame str) (l : str) (c : list str) :
  snd (normalize raw_dfs) = Ok F ->
  getitem l F = Ok c ->
  Forall (fun s => strip s = s) c.
Proof.
  unfold normalize. destruct (merge_tables raw_dfs []) as [ws [full|e]];
    simpl; [|discriminate].
  intros [= <-] G. apply getitem_Ok in G. rewrite lookup_strip_columns in G.
  destruct (lookup l (dropna_all full)) as [c0|]; [|discriminate G].
  injection G as <-. apply Forall_map, Forall_forall. intros x _.
  apply strip_idem.
Qed.

Lemma normalized_fields_are_trimmed_witness :
  snd (normalize [two_course_table]) = Ok two_course_frame
  /\ getitem L_name two_course_frame = Ok [u "Intro"; u "Lab"]
  /\ Forall (fun s => strip s = s) [u "Intro"; u "Lab"].
Proof.
  split; [reflexivity|]. split; [reflexivity|].
  exact (normalized_fields_are_trimmed [two_course_table] two_course_frame
           L_name _ eq_refl eq_refl).
Defined.

Lemma kept_column_count (j : nat) (ts : list raw_table) :
  Forall (fun t => length t = 6%nat
                   /\ forall c, In c t -> length c = length (nth 0 t [])) ts ->
  (j < 6)%nat ->
  length (flat_map (kept_column j) ts)
  = length (flat_map (fun t => filter keep_row (nth 0 t [])) ts).
Proof.
  intros H Hj. induction H as [|t ts [Hw Ht] Hts IH]; [reflexivity|].
  cbn [flat_map]. rewrite !length_app, IH. f_equal.
  unfold kept_column. apply select_count. apply Ht. apply nth_In. lia.
Qed.

(** X14. When the columns of every table of six columns have one length,
    every column of the records has one entry per row whose year passes
    the test: the records stay aligned. *)
Theorem normalized_columns_stay_aligned
  (raw_dfs : list raw_table) (F : frame str) (l : str) (c : list str) :
  Forall (fun t => (length t <= 6)%nat) raw_dfs ->
  Forall (fun t => forall c, In c t -> length c = length (nth 0 t [])) raw_dfs ->
  snd (normalize raw_dfs) = Ok F ->
  getitem l F = Ok c ->
  length c
  = length (flat_map (fun t => filter keep_row (nth 0 t []))
              (filter (has_width 6) raw_dfs)).
Proof.
  intros H Hwf E G. rewrite normalize_eq in E by exact H. simpl in E.
  injection E as <-. apply getitem_Ok in G.
  apply normalized_frame_lookup in G as (_ & j & Hj & _ & ->).
  unfold normalized_column. rewrite length_map. apply kept_column_count; [|exact Hj].
  apply Forall_forall. intros t Ht. apply filter_In in Ht as [Ht Hw].
  split; [now apply Nat.eqb_eq in Hw|].
  rewrite Forall_forall in Hwf. now apply Hwf.
Qed.

Lemma normalized_columns_stay_aligned_witness :
  Forall (fun t => (length t <= 6)%nat) [filter_scenario_table]
  /\ Forall (fun t => forall c, In c t -> length c = length (nth 0 t []))
       [filter_scenario_table]
  /\ getitem L_GPA (normalized_frame [filter_scenario_table]) = Ok [u "B"]
  /\ length [u "B"] = 1%nat.
Proof.
  assert (H : Forall (fun t => (length t <= 6)%nat) [filter_scenario_table])
    by (repeat constructor).
  assert (Hwf : Forall (fun t => forall c, In c t -> length c = length (nth 0 t []))
                  [filter_scenario_table]).
  { repeat constructor. intros c Hc. cbn in Hc.
    repeat (destruct Hc as [<-|Hc]; [reflexivity|]). contradiction. }
  split; [exact H|]. split; [exact Hwf|]. split; [reflexivity|].
  exact (normalized_columns_stay_aligned [filter_scenario_table] _ L_GPA _
           H Hwf eq_refl eq_refl).
Defined.

(** ** The outcomes of a run *)

Lemma empty_normalized_frame (ts : list raw_table) :
  empty (normalized_frame ts) = true <-> flat_map (kept_column 0) ts = [].
Proof.
  destruct ts as [|t ts]; [split; reflexivity|].
  unfold normalized_frame. cbn [seq map]. unfold expected_columns.
  cbn [combine empty nrows]. rewrite Nat.eqb_eq.
  unfold normalized_column. rewrite length_map. apply length_zero_iff_nil.
Qed.

(** X15. From tables of at most six columns of which no row passes the
    test on the year, the run reports that there is no valid data, after
    one warning for each table of fewer than six columns, in their order;
    the analysis is not run. *)
Theorem run_without_course_rows
  (to_numeric : str -> option Q) (raw_dfs : list raw_table) :
  raw_dfs <> [] ->
  Forall (fun t => (length t <= 6)%nat) raw_dfs ->
  flat_map (kept_column 0) (filter (has_width 6) raw_dfs) = [] ->
  main to_numeric raw_dfs
  = (map skipped (filter (fun t => negb (has_width 6 t)) raw_dfs), NoValidData).
Proof.
  intros Hne H Hnone. unfold main.
  destruct raw_dfs as [|t rest]; [contradiction|].
  rewrite (normalize_eq _ H). cbv beta iota.
  apply empty_normalized_frame in Hnone. now rewrite Hnone.
Qed.

Lemma run_without_course_rows_witness :
  [[[NaN]]; padded_year_table] <> []
  /\ Forall (fun t => (length t <= 6)%nat) [[[NaN]]; padded_year_table]
  /\ flat_map (kept_column 0)
       (filter (has_width 6) [[[NaN]]; padded_year_table]) = []
  /\ main to_numeric_decimal [[[NaN]]; padded_year_table]
     = ([SkippedTable [[NaN]]], NoValidData).
Proof.
  assert (Hne : [[[NaN]]; padded_year_table] <> []) by discriminate.
  assert (H : Forall (fun t => (length t <= 6)%nat) [[[NaN]]; padded_year_table])
    by (repeat constructor).
  split; [exact Hne|]. split; [exact H|]. split; [reflexivity|].
  exact (run_without_course_rows to_numeric_decimal _ Hne H eq_refl).
Defined.






(** ** What the result depends on *)

(** X17. The total and the remaining credits depend on the credits and GPA
    columns only: two frames that agree on these two columns get the same
    figures, whatever their other columns hold. *)
Theorem figures_depend_on_two_columns
  (to_numeric : str -> option Q) (df1 df2 : frame str) (cs gs : list str) :
  getitem L_credits df1 = Ok cs -> getitem L_GPA df1 = Ok gs ->
  getitem L_credits df2 = Ok cs -> getitem L_GPA df2 = Ok gs ->
  exists total remaining p1 d1 p2 d2,
    analyze_student_grades to_numeric df1 = Ok (total, remaining, p1, d1)
    /\ analyze_student_grades to_numeric df2 = Ok (total, remaining, p2, d2).
Proof.
  intros Hc1 Hg1 Hc2 Hg2. apply getitem_Ok in Hc1, Hg1, Hc2, Hg2.
  pose proof (analyze_student_grades_eq to_numeric _ _ _ Hc1 Hg1) as E1.
  pose proof (analyze_student_grades_eq to_numeric _ _ _ Hc2 Hg2) as E2.
  cbv zeta in E1, E2. do 6 eexists. split; [exact E1 | exact E2].
Qed.

Lemma figures_depend_on_two_columns_witness :
  getitem L_credits first_course_frame = Ok [u "3"]
  /\ getitem L_GPA first_course_frame = Ok [u "A"]
  /\ getitem L_credits [(L_GPA, [u "A"]); (L_credits, [u "3"])] = Ok [u "3"]
  /\ getitem L_GPA [(L_GPA, [u "A"]); (L_credits, [u "3"])] = Ok [u "A"]
  /\ exists total remaining p1 d1 p2 d2,
       analyze_student_grades to_numeric_decimal first_course_frame
         = Ok (total, remaining, p1, d1)
       /\ analyze_student_grades to_numeric_decimal
            [(L_GPA, [u "A"]); (L_credits, [u "3"])]
         = Ok (total, remaining, p2, d2).
Proof.
  split; [reflexivity|]. split; [reflexivity|]. split; [reflexivity|].
  split; [reflexivity|].
  exact (figures_depend_on_two_columns to_numeric_decimal first_course_frame
           [(L_GPA, [u "A"]); (L_credits, [u "3"])] [u "3"] [u "A"]
           eq_refl eq_refl eq_refl eq_refl).
Defined.

(** ** Lines of the loop that change nothing *)

(** X19. The test for the marker of the summary line drops no row that the
    test for three digits keeps: the mask of lines 105 to 108 is the mask
    of the three-digit test alone. *)
Theorem marker_test_is_implied (year : list cell) :
  year_mask year = map (fun x => match_three_digits (astype_str x)) year.
Proof.
  rewrite year_mask_keep_row. apply map_ext. intros x. unfold keep_row.
  destruct (match_three_digits (astype_str x)) eqn:Em; [|reflexivity].
  assert (Hk : keep_row x = true).
  { apply keep_row_iff.
    destruct (astype_str x) as [|a [|b [|c [|nl [|z s]]]]]; try discriminate Em.
    - exists a, b, c, []. simpl in Em.
      apply andb_true_iff in Em as [Em Hc]. apply andb_true_iff in Em as [Ha Hb].
      repeat split; auto.
    - exists a, b, c, [nl]. simpl in Em.
      apply andb_true_iff in Em as [Em Hnl]. apply andb_true_iff in Em as [Em Hc].
      apply andb_true_iff in Em as [Ha Hb]. apply N.eqb_eq in Hnl. subst nl.
      repeat split; auto. }
  unfold keep_row in Hk. rewrite Em in Hk. exact Hk.
Qed.

(** X20. On the frame that the loop builds from tables of at most six
    columns, dropping the rows that hold NaN only removes nothing: every
    row kept has a year. *)
Theorem dropna_removes_nothing (raw_dfs : list raw_table) (full : frame cell) :
  Forall (fun t => (length t <= 6)%nat) raw_dfs ->
  snd (merge_tables raw_dfs []) = Ok full ->
  dropna_all full = full.
Proof.
  intros H E. rewrite (merge_tables_fold _ _ H) in E. simpl in E.
  injection E as <-. rewrite fold_concat_nil.
  destruct (filter (has_width 6) raw_dfs) as [|t ts]; [reflexivity|].
  apply dropna_all_kept.
Qed.

Lemma dropna_removes_nothing_witness :
  Forall (fun t => (length t <= 6)%nat) [filter_scenario_table]
  /\ exists full,
       snd (merge_tables [filter_scenario_table] []) = Ok full
       /\ dropna_all full = full.
Proof.
  assert (H : Forall (fun t => (length t <= 6)%nat) [filter_scenario_table])
    by (repeat constructor).
  split; [exact H|]. eexists. split; [reflexivity|].
  exact (dropna_removes_nothing [filter_scenario_table] _ H eq_refl).
Defined.

(** ** The figures on a credits column of integers *)

Lemma wrap_int64_small (z : Z) :
  (int64_min <= z <= int64_max)%Z -> wrap_int64 z = z.
Proof.
  unfold int64_min, int64_max, wrap_int64. intros H.
  rewrite Z.mod_small by lia. lia.
Qed.

Lemma wrap_int64_add_l (a b : Z) : wrap_int64 (wrap_int64 a + b) = wrap_int64 (a + b).
Proof.
  unfold wrap_int64. f_equal.
  replace ((a + 2 ^ 63) mod 2 ^ 64 - 2 ^ 63 + b + 2 ^ 63)%Z
    with ((a + 2 ^ 63) mod 2 ^ 64 + b)%Z by lia.
  rewrite Z.add_mod_idemp_l by lia. f_equal. lia.
Qed.

Lemma wrap_int64_add_r (a b : Z) : wrap_int64 (a + wrap_int64 b) = wrap_int64 (a + b).
Proof. rewrite Z.add_comm, wrap_int64_add_l. f_equal. lia. Qed.

Lemma int64_sum_wrap (l : list Z) : int64_sum l = wrap_int64 (Zsum l).
Proof.
  unfold int64_sum.
  assert (H : forall acc,
             fold_left (fun a x => wrap_int64 (a + x)) l (wrap_int64 acc)
             = wrap_int64 (acc + Zsum l)).
  { induction l as [|x l IH]; intros acc; simpl.
    - f_equal. lia.
    - rewrite wrap_int64_add_l, IH. f_equal. lia. }
  exact (H 0%Z).
Qed.

Lemma Zsum_app (a b : list Z) : Zsum (a ++ b) = (Zsum a + Zsum b)%Z.
Proof. induction a as [|x a IH]; simpl; [reflexivity|]. rewrite IH. lia. Qed.

Lemma passed_mask_int64_counted (credits : list Z) (gpa : list str) :
  select (passed_mask_int64 credits gpa) credits = counted_int64 credits gpa.
Proof.
  unfold passed_mask_int64, series_and, counted_int64.
  revert gpa. induction credits as [|c credits IH]; intros [|g gpa]; simpl;
    try reflexivity.
  destruct (is_passed g && (0 <? c)%Z); simpl; now rewrite IH.
Qed.

Lemma counted_int64_positive (credits : list Z) (gpa : list str) :
  Forall (fun z => (0 < z)%Z) (counted_int64 credits gpa).
Proof.
  apply Forall_forall. intros z Hz. unfold counted_int64 in Hz.
  apply in_map_iff in Hz as (r & <- & Hr). apply filter_In in Hr as [_ Hp].
  apply andb_true_iff in Hp as [_ Hp]. now apply Z.ltb_lt in Hp.
Qed.

Lemma Zsum_nonneg (l : list Z) : Forall (fun z => (0 < z)%Z) l -> (0 <= Zsum l)%Z.
Proof. induction 1 as [|z l Hz Hl IH]; simpl; lia. Qed.

Lemma counted_int64_app (c1 c2 : list Z) (g1 g2 : list str) :
  length c1 = length g1 ->
  counted_int64 (c1 ++ c2) (g1 ++ g2) = counted_int64 c1 g1 ++ counted_int64 c2 g2.
Proof.
  intros H. unfold counted_int64. rewrite <- map_app, <- filter_app.
  do 2 f_equal. revert g1 H.
  induction c1 as [|c c1 IH]; intros [|g g1] H; try discriminate H; simpl;
    [reflexivity|].
  f_equal. apply IH. now injection H.
Qed.

Lemma credits_int64_length (cs : list str) (credits : list Z) :
  credits_int64 cs = Some credits -> length credits = length cs.
Proof.
  revert credits. induction cs as [|s cs IH]; simpl; intros credits H.
  - now injection H as <-.
  - destruct (to_integer s) as [z|]; [|discriminate H].
    destruct (credits_int64 cs) as [zs|]; [|discriminate H].
    destruct ((int64_min <=? z) && (z <=? int64_max))%Z; [|discriminate H].
    injection H as <-. simpl. f_equal. now apply IH.
Qed.

Lemma credits_int64_app (a b : list str) :
  credits_int64 (a ++ b)
  = match credits_int64 a, credits_int64 b with
    | Some x, Some y => Some (x ++ y)
    | _, _ => None
    end.
Proof.
  induction a as [|s a IH]; simpl.
  - now destruct (credits_int64 b).
  - rewrite IH. destruct (to_integer s) as [z|]; [|reflexivity].
    destruct (credits_int64 a) as [x|]; [|reflexivity].
    destruct (credits_int64 b) as [y|];
      now destruct ((int64_min <=? z) && (z <=? int64_max))%Z.
Qed.

Lemma int64_figures_eq (cs gs : list str) (credits : list Z) :
  credits_int64 cs = Some credits ->
  int64_figures cs gs
  = Some (wrap_int64 (Zsum (counted_int64 credits gs)),
          let d := wrap_int64 (128 - wrap_int64 (Zsum (counted_int64 credits gs))) in
          if (0 <? d)%Z then d else 0%Z).
Proof.
  intros H. unfold int64_figures. rewrite H.
  now rewrite passed_mask_int64_counted, int64_sum_wrap.
Qed.

Lemma int64_figures_exact (cs gs : list str) (credits : list Z) :
  credits_int64 cs = Some credits ->
  (Zsum (counted_int64 credits gs) <= int64_max)%Z ->
  int64_figures cs gs
  = Some (Zsum (counted_int64 credits gs),
          Z.max 0 (128 - Zsum (counted_int64 credits gs))).
Proof.
  intros H Hfit. rewrite (int64_figures_eq _ _ _ H).
  pose proof (Zsum_nonneg _ (counted_int64_positive credits gs)) as Hpos.
  cbv zeta. unfold int64_max, int64_min in *.
  rewrite (wrap_int64_small (Zsum _)) by (unfold int64_min, int64_max; lia).
  rewrite wrap_int64_small by (unfold int64_min, int64_max; lia).
  f_equal. f_equal. destruct (Z.ltb_spec 0 (128 - Zsum (counted_int64 credits gs))); lia.
Qed.




(** X7. On a credits column of integers whose counted credits add up to at
    most [2^63 - 1], the total and the remaining credits add up to at least
    128, and to 128 exactly as long as the total is not above 128. *)
Theorem earned_plus_remaining_int64 (cs gs : list str) (credits : list Z) :
  credits_int64 cs = Some credits ->
  (Zsum (counted_int64 credits gs) <= int64_max)%Z ->
  exists total remaining,
    int64_figures cs gs = Some (total, remaining)
    /\ (128 <= total + remaining)%Z
    /\ ((total <= 128)%Z -> (total + remaining = 128)%Z).
Proof.
  intros H Hfit. eexists _, _. split; [exact (int64_figures_exact _ _ _ H Hfit)|].
  split; lia.
Qed.

Lemma earned_plus_remaining_int64_witness :
  credits_int64 [u "3"; u "1"] = Some [3%Z; 1%Z]
  /\ (Zsum (counted_int64 [3%Z; 1%Z] [u "A"; u "F"]) <= int64_max)%Z
  /\ exists total remaining,
       int64_figures [u "3"; u "1"] [u "A"; u "F"] = Some (total, remaining)
       /\ (128 <= total + remaining)%Z
       /\ ((total <= 128)%Z -> (total + remaining = 128)%Z).
Proof.
  assert (Hfit : (Zsum (counted_int64 [3%Z; 1%Z] [u "A"; u "F"]) <= int64_max)%Z).
  { vm_compute. discriminate. }
  split; [reflexivity|]. split; [exact Hfit|].
  exact (earned_plus_remaining_int64 [u "3"; u "1"] [u "A"; u "F"] [3%Z; 1%Z]
           eq_refl Hfit).
Defined.

(** X8. On credits columns of integers the totals add up as int64 numbers:
    for credits and grades that are those of one frame followed by those of
    another, the total is the wrapped sum of the two totals, and their sum
    itself when that lies within the int64 range. *)
Theorem totals_add_up_int64
  (cs1 cs2 gs1 gs2 : list str) (c1 c2 : list Z) :
  credits_int64 cs1 = Some c1 ->
  credits_int64 cs2 = Some c2 ->
  length cs1 = length gs1 ->
  exists t1 r1 t2 r2 t r,
    int64_figures cs1 gs1 = Some (t1, r1)
    /\ int64_figures cs2 gs2 = Some (t2, r2)
    /\ int64_figures (cs1 ++ cs2) (gs1 ++ gs2) = Some (t, r)
    /\ t = wrap_int64 (t1 + t2)
    /\ ((int64_min <= t1 + t2 <= int64_max)%Z -> t = (t1 + t2)%Z).
Proof.
  intros H1 H2 Hlen.
  assert (H12 : credits_int64 (cs1 ++ cs2) = Some (c1 ++ c2)).
  { now rewrite credits_int64_app, H1, H2. }
  do 6 eexists.
  split; [exact (int64_figures_eq _ _ _ H1)|].
  split; [exact (int64_figures_eq _ _ _ H2)|].
  split; [exact (int64_figures_eq _ _ _ H12)|].
  assert (E : wrap_int64 (Zsum (counted_int64 (c1 ++ c2) (gs1 ++ gs2)))
              = wrap_int64 (wrap_int64 (Zsum (counted_int64 c1 gs1))
                            + wrap_int64 (Zsum (counted_int64 c2 gs2)))).
  { rewrite counted_int64_app
      by (rewrite (credits_int64_length _ _ H1); exact Hlen).
    now rewrite Zsum_app, wrap_int64_add_l, wrap_int64_add_r. }
  split; [exact E|]. intros Hfit. rewrite E. now apply wrap_int64_small.
Qed.

Lemma totals_add_up_int64_witness :
  credits_int64 [u "9223372036854775807"] = Some [9223372036854775807%Z]
  /\ credits_int64 [u "1"] = Some [1%Z]
  /\ length [u "9223372036854775807"] = length [u "A"]
  /\ exists t1 r1 t2 r2 t r,
       int64_figures [u "9223372036854775807"] [u "A"] = Some (t1, r1)
       /\ int64_figures [u "1"] [u "A"] = Some (t2, r2)
       /\ int64_figures ([u "9223372036854775807"] ++ [u "1"]) ([u "A"] ++ [u "A"])
          = Some (t, r)
       /\ t = wrap_int64 (t1 + t2)
       /\ ((int64_min <= t1 + t2 <= int64_max)%Z -> t = (t1 + t2)%Z).
Proof.
  split; [reflexivity|]. split; [reflexivity|]. split; [reflexivity|].
  exact (totals_add_up_int64 [u "9223372036854775807"] [u "1"] [u "A"] [u "A"]
           [9223372036854775807%Z] [1%Z] eq_refl eq_refl eq_refl).
Defined.

(** X18. On a credits column of integers whose counted credits add up to
    at most [2^63 - 1], more records never lower the total and never raise
    the remaining credits: the figures of the first rows alone are a total
    at most as high and remaining credits at least as high. *)
Theorem more_records_never_hurt_int64
  (cs1 cs2 gs1 gs2 : list str) (c1 c2 : list Z) :
  credits_int64 cs1 = Some c1 ->
  credits_int64 cs2 = Some c2 ->
  length cs1 = length gs1 ->
  (Zsum (counted_int64 (c1 ++ c2) (gs1 ++ gs2)) <= int64_max)%Z ->
  exists t1 r1 t r,
    int64_figures cs1 gs1 = Some (t1, r1)
    /\ int64_figures (cs1 ++ cs2) (gs1 ++ gs2) = Some (t, r)
    /\ (t1 <= t)%Z /\ (r <= r1)%Z.
Proof.
  intros H1 H2 Hlen Hfit.
  assert (H12 : credits_int64 (cs1 ++ cs2) = Some (c1 ++ c2)).
  { now rewrite credits_int64_app, H1, H2. }
  pose proof (Zsum_nonneg _ (counted_int64_positive c1 gs1)) as Hp1.
  pose proof (Zsum_nonneg _ (counted_int64_positive c2 gs2)) as Hp2.
  assert (Hsum : Zsum (counted_int64 (c1 ++ c2) (gs1 ++ gs2))
                 = (Zsum (counted_int64 c1 gs1) + Zsum (counted_int64 c2 gs2))%Z).
  { rewrite counted_int64_app
      by (rewrite (credits_int64_length _ _ H1); exact Hlen).
    apply Zsum_app. }
  do 4 eexists.
  split; [apply (int64_figures_exact _ _ _ H1); lia|].
  split; [exact (int64_figures_exact _ _ _ H12 Hfit)|].
  lia.
Qed.

Lemma more_records_never_hurt_int64_witness :
  credits_int64 [u "3"] = Some [3%Z]
  /\ credits_int64 [u "1"] = Some [1%Z]
  /\ length [u "3"] = length [u "A"]
  /\ (Zsum (counted_int64 ([3%Z] ++ [1%Z]) ([u "A"] ++ [u "F"])) <= int64_max)%Z
  /\ exists t1 r1 t r,
       int64_figures [u "3"] [u "A"] = Some (t1, r1)
       /\ int64_figures ([u "3"] ++ [u "1"]) ([u "A"] ++ [u "F"]) = Some (t, r)
       /\ (t1 <= t)%Z /\ (r <= r1)%Z.
Proof.
  assert (Hfit : (Zsum (counted_int64 ([3%Z] ++ [1%Z]) ([u "A"] ++ [u "F"]))
                  <= int64_max)%Z).
  { vm_compute. discriminate. }
  split; [reflexivity|]. split; [reflexivity|]. split; [reflexivity|].
  split; [exact Hfit|].
  exact (more_records_never_hurt_int64 [u "3"] [u "1"] [u "A"] [u "F"]
           [3%Z] [1%Z] eq_refl eq_refl eq_refl Hfit).
Defined.

(** ** The two readings of the arithmetic agree where nothing wraps *)

Lemma inject_Z_add (a b : Z) : inject_Z a + inject_Z b = inject_Z (a + b).
Proof. unfold Qplus, inject_Z. simpl. now rewrite !Z.mul_1_r. Qed.

Lemma Qltb_inject_Z (z : Z) : Qltb 0 (inject_Z z) = (0 <? z)%Z.
Proof.
  unfold Qltb, Qcompare, inject_Z, Z.ltb. simpl. now rewrite Z.mul_1_r.
Qed.

Lemma series_sum_inject_Z (l : list Z) :
  series_sum (map inject_Z l) = inject_Z (Zsum l).
Proof.
  unfold series_sum. change (0 : Q) with (inject_Z 0).
  assert (H : forall a, fold_left Qplus (map inject_Z l) (inject_Z a)
                        = inject_Z (a + Zsum l)).
  { induction l as [|x l IH]; intros a; simpl.
    - now rewrite Z.add_0_r.
    - rewrite inject_Z_add, IH. f_equal. lia. }
  exact (H 0%Z).
Qed.

Lemma fillna_integers (cs : list str) (credits : list Z) :
  credits_int64 cs = Some credits ->
  fillna 0 (map (fun s => option_map inject_Z (to_integer s)) cs)
  = map inject_Z credits.
Proof.
  revert credits. induction cs as [|s cs IH]; simpl; intros credits H.
  - now injection H as <-.
  - destruct (to_integer s) as [z|]; [|discriminate H].
    destruct (credits_int64 cs) as [zs|]; [|discriminate H].
    destruct ((int64_min <=? z) && (z <=? int64_max))%Z; [|discriminate H].
    injection H as <-. simpl. f_equal. now apply IH.
Qed.

Lemma passed_mask_integers (credits : list Z) (gpa : list str) :
  passed_mask (map inject_Z credits) gpa = passed_mask_int64 credits gpa.
Proof.
  unfold passed_mask, passed_mask_int64. f_equal. rewrite map_map.
  apply map_ext. exact Qltb_inject_Z.
Qed.

(** On a credits column of integers whose counted credits add up to at
    most [2^63 - 1], the figures of [analyze_student_grades], computed
    without rounding or wrapping, are the int64 figures. *)
Lemma exact_figures_are_int64_figures
  (df : frame str) (cs gs : list str) (credits : list Z) :
  getitem L_credits df = Ok cs ->
  getitem L_GPA df = Ok gs ->
  credits_int64 cs = Some credits ->
  (Zsum (counted_int64 credits gs) <= int64_max)%Z ->
  exists total remaining passed df',
    int64_figures cs gs = Some (total, remaining)
    /\ analyze_student_grades (fun s => option_map inject_Z (to_integer s)) df
       = Ok (inject_Z total, inject_Z remaining, passed, df').
Proof.
  intros Hc Hg H Hfit. apply getitem_Ok in Hc, Hg.
  pose proof (analyze_student_grades_eq
                (fun s => option_map inject_Z (to_integer s)) df cs gs Hc Hg) as E.
  cbv zeta in E. rewrite (fillna_integers _ _ H) in E.
  rewrite passed_mask_integers, select_map, passed_mask_int64_counted in E.
  rewrite series_sum_inject_Z in E.
  eexists _, _, _, _. split; [exact (int64_figures_exact _ _ _ H Hfit)|].
  rewrite E. do 3 f_equal.
  set (t := Zsum (counted_int64 credits gs)).
  unfold py_max, GRADUATION_REQUIREMENT.
  change (128 - inject_Z t) with (inject_Z 128 + inject_Z (- t)).
  rewrite inject_Z_add, Qltb_inject_Z.
  replace (128 + - t)%Z with (128 - t)%Z by lia.
  destruct (Z.ltb_spec 0 (128 - t)).
  - now rewrite Z.max_r by lia.
  - now rewrite Z.max_l by lia.
Qed.
